(** * Seat selection and booking wizard of the bus reservation front end

    A shallow embedding of the [SeatSelection] component of
    [frontend/src/App.js] (lines 1271-1538): its four pieces of React state,
    the three event handlers [handleSeatClick],
    [handlePassengerDetailChange] and [handleBooking], and the gating of
    the buttons and tab triggers that dispatch to them.

    JavaScript data is modelled as the code has it: seat numbers and field
    values are strings, a passenger detail is an object used as a map from
    property names to strings ([gmap string string]), and the roster is a
    JavaScript array whose slots may be holes or [undefined] once it is
    written past its end. *)

From Stdlib Require Import Ascii.
From stdpp Require Import gmap strings list.

Open Scope string_scope.
Open Scope list_scope.
Open Scope nat_scope.

(** ** Data *)

(** One element of the [seats] prop, as returned by [GET /bus-seats]. *)
Record Seat := mkSeat {
  seat_number : string;
  is_booked : bool
}.

(** A slot of the JavaScript array [passengerDetails].  [Hole] is an index
    that was never written (left behind when the array is extended by an
    assignment past its end), [Undefined] is the value a hole becomes when
    the array is copied with the spread syntax. *)
Inductive slot :=
| Hole
| Undefined
| Obj (d : gmap string string).

(** The arguments of a [toast(...)] call. *)
Record toast_args := mkToast {
  title : string;
  description : option string;
  variant : option string
}.

(** The body of [POST /book-tickets]. *)
Record booking_request := mkRequest {
  schedule_id : string;
  seats : list string;
  passenger_details : list slot
}.

(** [response.data.booking], passed through to [onBookingComplete]. *)
Record booking := mkBooking {
  booking_id : string;
  total_amount : Z;
  status : string
}.

(** How the promise returned by [axios.post] settles: fulfilled with a
    booking, or rejected with an error whose [response.data.detail] may be
    absent. *)
Inductive settlement :=
| Fulfilled (b : booking)
| Rejected (detail : option string).

(** What a handler does besides updating the component state. *)
Inductive effect :=
| Toast (t : toast_args)
| Post (r : booking_request)
| BookingComplete (b : booking).

(** The props and context the component reads: [useAuth().user] (only its
    presence matters), [bus.schedule_id], [bus.price] and [seats]. *)
Record props := mkProps {
  user : option string;
  bus_schedule_id : string;
  bus_price : Z;
  seat_map : list Seat
}.

(** The four [useState] cells of [SeatSelection]. *)
Record state := mkState {
  selectedSeats : list string;
  passengerDetails : list slot;
  currentStep : string;
  isLoading : bool
}.

(** [useState([])], [useState([])], [useState('seats')], [useState(false)]. *)
Definition initial_state : state :=
  mkState [] [] "seats" false.

Definition setSelectedSeats (v : list string) (st : state) : state :=
  mkState v (passengerDetails st) (currentStep st) (isLoading st).

Definition setPassengerDetails (v : list slot) (st : state) : state :=
  mkState (selectedSeats st) v (currentStep st) (isLoading st).

Definition setCurrentStep (v : string) (st : state) : state :=
  mkState (selectedSeats st) (passengerDetails st) v (isLoading st).

Definition setIsLoading (v : bool) (st : state) : state :=
  mkState (selectedSeats st) (passengerDetails st) (currentStep st) v.

(** ** JavaScript array and object primitives used by the handlers *)

(** [a[i]]: the object stored at index [i], [None] for [undefined] (a hole,
    an [undefined] slot or an index past the end all read as
    [undefined]). *)
Definition js_get (a : list slot) (i : nat) : option (gmap string string) :=
  match a !! i with
  | Some (Obj d) => Some d
  | _ => None
  end.

(** [[...a]]: the iterator yields [undefined] for a hole. *)
Definition js_spread (a : list slot) : list slot :=
  (λ s, match s with Hole => Undefined | _ => s end) <$> a.

(** [a[i] = x] on an array: within bounds it overwrites, past the end it
    extends the array, leaving holes between the old end and [i]. *)
Definition js_set (a : list slot) (i : nat) (x : slot) : list slot :=
  if decide (i < length a) then <[i := x]> a
  else a ++ replicate (i - length a) Hole ++ [x].

(** [{ ...o, [field]: value }] where [o] may be [undefined]. *)
Definition js_object_with (o : option (gmap string string))
    (field value : string) : gmap string string :=
  <[field := value]> (default ∅ o).

(** Truthiness of a property read [o.k] whose value, when present, is a
    string: [undefined] and the empty string are falsy. *)
Definition truthy (v : option string) : bool :=
  match v with
  | Some s => negb (bool_decide (s = ""))
  | None => false
  end.

(** [a.some(pred)]: holes are skipped; [pred] is applied to every other
    slot and may throw ([None]). *)
Fixpoint js_some (pred : slot → option bool) (a : list slot) : option bool :=
  match a with
  | [] => Some false
  | Hole :: r => js_some pred r
  | s :: r =>
      match pred s with
      | None => None
      | Some true => Some true
      | Some false => js_some pred r
      end
  end.

(** ** The handlers *)

(** [{ name: '', age: '', gender: 'male' }] *)
Definition blank_detail : gmap string string :=
  <["name" := ""]> (<["age" := ""]> (<["gender" := "male"]> ∅)).

(** [toast({ title: "Maximum 6 seats can be selected", variant: "destructive" })] *)
Definition max_seats_toast : toast_args :=
  mkToast "Maximum 6 seats can be selected" None (Some "destructive").

(** Lines 1297-1302: store the new selection and rebuild the roster,
    [newSelectedSeats.map((seatNum, index) => passengerDetails[index] || {...})]. *)
Definition resync (newSelectedSeats : list string) (st : state) : state :=
  let newPassengerDetails :=
    imap (λ index (seatNum : string),
            Obj (default blank_detail (js_get (passengerDetails st) index)))
         newSelectedSeats in
  setPassengerDetails newPassengerDetails (setSelectedSeats newSelectedSeats st).

(** [handleSeatClick(seat)], lines 1278-1303. *)
Definition handleSeatClick (seat : Seat) (st : state) : state * list effect :=
  if is_booked seat then (st, [])
  else
    let isSelected := bool_decide (seat_number seat ∈ selectedSeats st) in
    if isSelected then
      (resync (filter (λ s, s ≠ seat_number seat) (selectedSeats st)) st, [])
    else if decide (6 ≤ length (selectedSeats st)) then
      (st, [Toast max_seats_toast])
    else
      (resync (selectedSeats st ++ [seat_number seat]) st, []).

(** [handlePassengerDetailChange(index, field, value)], lines 1305-1309. *)
Definition handlePassengerDetailChange (index : nat) (field value : string)
    (st : state) : state :=
  let updated := js_spread (passengerDetails st) in
  let updated :=
    js_set updated index (Obj (js_object_with (js_get updated index) field value)) in
  setPassengerDetails updated st.

Definition login_toast : toast_args :=
  mkToast "Please login to book tickets" None (Some "destructive").

Definition confirmed_toast : toast_args :=
  mkToast "Booking confirmed successfully!" None None.

(** [error.response?.data?.detail || "Something went wrong"] *)
Definition failed_toast (detail : option string) : toast_args :=
  mkToast "Booking failed"
    (Some (if truthy detail then default "" detail else "Something went wrong"))
    (Some "destructive").

(** [handleBooking], lines 1311-1323, up to the [await]: the login check,
    [setIsLoading(true)] and the [axios.post] call.  There is no test of
    [isLoading] in the handler. *)
Definition handleBooking (p : props) (st : state) : state * list effect :=
  match user p with
  | None => (st, [Toast login_toast])
  | Some _ =>
      (setIsLoading true st,
       [Post (mkRequest (bus_schedule_id p) (selectedSeats st) (passengerDetails st))])
  end.

(** [handleBooking], lines 1325-1335, after the [await]: the [try] tail on
    fulfilment, the [catch] on rejection, and the [finally]. *)
Definition handleBooking_settled (r : settlement) (st : state) : state * list effect :=
  match r with
  | Fulfilled b => (setIsLoading false st, [Toast confirmed_toast; BookingComplete b])
  | Rejected detail => (setIsLoading false st, [Toast (failed_toast detail)])
  end.

(** ** The controls that dispatch to the handlers *)

(** [p => !p.name || !p.age], the callback of both [some] calls.  Reading a
    property of [undefined] throws a [TypeError]. *)
Definition missing_name_or_age (p : slot) : option bool :=
  match p with
  | Obj d => Some (negb (truthy (d !! "name")) || negb (truthy (d !! "age")))
  | _ => None
  end.

(** [disabled={passengerDetails.some(p => !p.name || !p.age)}] of the
    "Continue to Payment" button, lines 1476-1481. *)
Definition continue_disabled (st : state) : option bool :=
  js_some missing_name_or_age (passengerDetails st).

(** A click on "Continue to Payment": [setCurrentStep('payment')] unless the
    button is disabled.  When the [disabled] expression throws the
    component does not render and nothing is dispatched. *)
Definition clickContinueToPayment (st : state) : state :=
  match continue_disabled st with
  | Some false => setCurrentStep "payment" st
  | _ => st
  end.

(** The [disabled] expressions of the three [TabsTrigger]s, lines
    1363-1371; a value without a trigger cannot be picked. *)
Definition tab_disabled (value : string) (st : state) : option bool :=
  if decide (value = "seats") then
    Some (bool_decide (length (selectedSeats st) = 0)
          && negb (bool_decide (currentStep st = "seats")))
  else if decide (value = "passengers") then
    Some (bool_decide (length (selectedSeats st) = 0))
  else if decide (value = "payment") then
    if decide (length (selectedSeats st) = 0) then Some true
    else continue_disabled st
  else Some true.

(** [onValueChange={setCurrentStep}] of [Tabs]. *)
Definition clickTab (value : string) (st : state) : state :=
  match tab_disabled value st with
  | Some false => setCurrentStep value st
  | _ => st
  end.

(** The "Continue to Passenger Details" button, lines 1410-1422, rendered
    only when [selectedSeats.length > 0]. *)
Definition clickContinueToPassengers (st : state) : state :=
  if decide (0 < length (selectedSeats st)) then setCurrentStep "passengers" st
  else st.

(** The pay button, lines 1523-1530: [onClick={handleBooking}],
    [disabled={isLoading}]. *)
Definition clickPay (p : props) (st : state) : state * list effect :=
  if isLoading st then (st, []) else handleBooking p st.

(** The component together with what it has sent out: the booking requests
    that have not settled yet and every effect so far. *)
Record world := mkWorld {
  comp : state;
  in_flight : list booking_request;
  emitted : list effect
}.

Definition initial_world : world := mkWorld initial_state [] [].

Definition posts (effs : list effect) : list booking_request :=
  omap (λ e, match e with Post r => Some r | _ => None end) effs.

Definition toasts (effs : list effect) : list toast_args :=
  omap (λ e, match e with Toast t => Some t | _ => None end) effs.

(** Run a handler inside the world: its requests join the ones in flight. *)
Definition dispatch (h : state → state * list effect) (w : world) : world :=
  let r := h (comp w) in
  mkWorld r.1 (in_flight w ++ posts r.2) (emitted w ++ r.2).

(** What can happen to a mounted component.  Every event is guarded the way
    the rendered control is; which tab panel is currently shown is not
    taken into account, so the model allows more than the page does. *)
Inductive ui_event :=
| SeatButton (seat : Seat)
| DetailInput (index : nat) (field value : string)
| ContinueToPassengers
| ContinueToPayment
| TabTrigger (value : string)
| PayButton
| Settled (i : nat) (r : settlement).

Definition ui_step (p : props) (w : world) (e : ui_event) : world :=
  match e with
  | SeatButton seat =>
      if is_booked seat then w else dispatch (handleSeatClick seat) w
  | DetailInput index field value =>
      if decide (index < length (selectedSeats (comp w))) then
        dispatch (λ st, (handlePassengerDetailChange index field value st, [])) w
      else w
  | ContinueToPassengers => dispatch (λ st, (clickContinueToPassengers st, [])) w
  | ContinueToPayment => dispatch (λ st, (clickContinueToPayment st, [])) w
  | TabTrigger value => dispatch (λ st, (clickTab value st, [])) w
  | PayButton => dispatch (clickPay p) w
  | Settled i r =>
      match in_flight w !! i with
      | Some _ =>
          let w' := dispatch (handleBooking_settled r) w in
          mkWorld (comp w') (delete i (in_flight w')) (emitted w')
      | None => w
      end
  end.

Definition ui_run (p : props) (evs : list ui_event) (w : world) : world :=
  foldl (ui_step p) w evs.

(** A sequence of seat toggles applied straight to the handler. *)
Definition toggles (clicks : list Seat) (st : state) : state :=
  foldl (λ st seat, (handleSeatClick seat st).1) st clicks.

(** ** Notions the properties are stated with *)

(** The detail shown on the card of seat [seatNum]: the cards are rendered
    by [selectedSeats.map((seatNum, index) => ...)] and the card at [index]
    reads [passengerDetails[index]] (lines 1426-1470). *)
Definition detail_of_seat (st : state) (seatNum : string)
    : option (gmap string string) :=
  match list_find (λ s, s = seatNum) (selectedSeats st) with
  | Some (index, _) => js_get (passengerDetails st) index
  | None => None
  end.

(** A roster without holes or [undefined] slots. *)
Definition dense (a : list slot) (ds : list (gmap string string)) : Prop :=
  a = Obj <$> ds.

(** What a positional rebuild makes of a dense roster: its first [n]
    entries, padded with blank details. *)
Definition positional (n : nat) (ds : list (gmap string string))
    : list (gmap string string) :=
  take n ds ++ replicate (n - length ds) blank_detail.

(** At most one request is out, and [isLoading] says whether one is. *)
Definition submit_inv (w : world) : Prop :=
  (isLoading (comp w) = false ∧ in_flight w = [])
  ∨ (isLoading (comp w) = true ∧ ∃ r, in_flight w = [r]).

(** The shape every state of a mounted component has: one entered detail
    per selected seat, at most 6 seats, none twice. *)
Definition well_formed (st : state) : Prop :=
  ∃ ds, dense (passengerDetails st) ds
        ∧ length ds = length (selectedSeats st)
        ∧ length (selectedSeats st) ≤ 6
        ∧ NoDup (selectedSeats st).

(** The name and age as the inputs show them, [p?.name || ''] and
    [p?.age || '']. *)
Definition shown (d : gmap string string) (field : string) : string :=
  default "" (d !! field).

Definition digit_value (c : ascii) : option N :=
  let n := N_of_ascii c in
  if decide (48 ≤ n ∧ n ≤ 57)%N then Some (n - 48)%N else None.

Fixpoint parse_digits (acc : N) (s : string) : option N :=
  match s with
  | EmptyString => Some acc
  | String c r =>
      match digit_value c with
      | Some d => parse_digits (10 * acc + d)%N r
      | None => None
      end
  end.

(** Decimal integers with an optional minus sign; the empty string and a
    lone sign do not parse. *)
Definition parse_integer (s : string) : option Z :=
  match s with
  | EmptyString => None
  | String "-"%char EmptyString => None
  | String "-"%char r => (λ n, - Z.of_N n)%Z <$> parse_digits 0 r
  | _ => Z.of_N <$> parse_digits 0 s
  end.

(** The specification's "parseable positive age". *)
Definition positive_age (s : string) : Prop :=
  ∃ n : Z, parse_integer s = Some n ∧ (0 < n)%Z.

(** ** A small trip used in the examples *)

Definition alice : gmap string string :=
  <["name" := "Alice"]> (<["age" := "30"]> (<["gender" := "female"]> ∅)).

Definition bob : gmap string string :=
  <["name" := "Bob"]> (<["age" := "41"]> (<["gender" := "male"]> ∅)).

Definition seat_A1 : Seat := mkSeat "A1" false.
Definition seat_A2 : Seat := mkSeat "A2" false.
Definition seat_A3 : Seat := mkSeat "A3" true.

Definition trip : props :=
  mkProps (Some "rider") "schedule-1" 500 [seat_A1; seat_A2; seat_A3].

(** A1 and A2 selected, in that order, with Alice entered on the card of A1
    and Bob on the card of A2. *)
Definition two_selected : state :=
  mkState ["A1"; "A2"] [Obj alice; Obj bob] "passengers" false.

(** A1 selected for Alice. *)
Definition one_selected : state :=
  mkState ["A1"] [Obj alice] "passengers" false.

(** A1 selected for a passenger whose age was typed as 0. *)
Definition age_zero : state :=
  mkState ["A1"] [Obj (<["age" := "0"]> alice)] "passengers" false.

(** Six free seats, enough to fill a booking. *)
Definition six_seats : list Seat :=
  (λ n, mkSeat n false) <$> ["B1"; "B2"; "B3"; "B4"; "B5"; "B6"].

(** ** The rest of the seat selection component *)

#[global] Instance Seat_eq_dec : EqDecision Seat.
Proof. solve_decision. Defined.

(** [getSeatColor(seat)], lines 1338-1342. *)
Definition getSeatColor (seat : Seat) (st : state) : string :=
  if is_booked seat then "bg-red-500 text-white cursor-not-allowed"
  else if bool_decide (seat_number seat ∈ selectedSeats st) then "bg-green-500 text-white"
  else "bg-gray-200 hover:bg-gray-300 cursor-pointer".

Definition completions (effs : list effect) : list booking :=
  omap (λ e, match e with BookingComplete b => Some b | _ => None end) effs.

(** Whether the control an event comes from is on the page.  A seat button
    exists for each element of [seats], and the inputs of a passenger card
    edit its name, age and gender; each of these lives in the
    [TabsContent] panel of one step, which [Tabs value={currentStep}] shows
    only while that step is the current one.  The tab triggers are always
    there, and a request settles whatever is shown. *)
Definition rendered (p : props) (st : state) (e : ui_event) : bool :=
  match e with
  | SeatButton seat =>
      bool_decide (currentStep st = "seats") && bool_decide (seat ∈ seat_map p)
  | ContinueToPassengers => bool_decide (currentStep st = "seats")
  | DetailInput _ field _ =>
      bool_decide (currentStep st = "passengers")
      && bool_decide (field ∈ ["name"; "age"; "gender"])
  | ContinueToPayment => bool_decide (currentStep st = "passengers")
  | PayButton => bool_decide (currentStep st = "payment")
  | TabTrigger _ => true
  | Settled _ _ => true
  end.

(** One event on the page as it is shown. *)
Definition page_step (p : props) (w : world) (e : ui_event) : world :=
  if rendered p (comp w) e then ui_step p w e else w.

Definition page_run (p : props) (evs : list ui_event) (w : world) : world :=
  foldl (page_step p) w evs.

(** A seat number of the trip that is not booked. *)
Definition free_in_map (p : props) (s : string) : Prop :=
  ∃ seat, seat ∈ seat_map p ∧ seat_number seat = s ∧ is_booked seat = false.

(** Every entry has a name and an age. *)
Definition complete_roster (ds : list (gmap string string)) : Prop :=
  ∀ d, d ∈ ds → shown d "name" ≠ "" ∧ shown d "age" ≠ "".

(** A booking request worth sending: for this trip, for at least one and at
    most 6 distinct free seats, with one complete passenger per seat. *)
Definition complete_request (p : props) (r : booking_request) : Prop :=
  schedule_id r = bus_schedule_id p
  ∧ seats r ≠ []
  ∧ length (seats r) ≤ 6
  ∧ NoDup (seats r)
  ∧ (∀ s, s ∈ seats r → free_in_map p s)
  ∧ ∃ ds, passenger_details r = Obj <$> ds
          ∧ length ds = length (seats r)
          ∧ complete_roster ds.

(** What holds of the page at all times. *)
Definition page_inv (p : props) (w : world) : Prop :=
  well_formed (comp w)
  ∧ (∀ s, s ∈ selectedSeats (comp w) → free_in_map p s)
  ∧ (currentStep (comp w) = "seats"
     ∨ (currentStep (comp w) = "passengers" ∧ selectedSeats (comp w) ≠ [])
     ∨ (currentStep (comp w) = "payment" ∧ selectedSeats (comp w) ≠ []
        ∧ continue_disabled (comp w) = Some false))
  ∧ (∀ r, r ∈ posts (emitted w) → complete_request p r).

(** A walk through the wizard: pick A1, enter Alice, go to payment, pay. *)
Definition alice_books : list ui_event :=
  [SeatButton seat_A1; ContinueToPassengers;
   DetailInput 0 "name" "Alice"; DetailInput 0 "age" "30";
   ContinueToPayment; PayButton].

Definition guest_trip : props :=
  mkProps None "schedule-1" 500 [seat_A1; seat_A2; seat_A3].

(** What happens to a mounted [SeatSelection]: an event of its own, or a
    render of the parent with other props.  [HomePage] renders it without a
    [key] (lines 1680-1684), so a new [bus], new [seats] or another [user]
    from the context reach the component with its state kept. *)
Inductive page_event :=
| Ui (e : ui_event)
| NewProps (p : props).

(** One step of a session, on the page as it is shown ([gated]) or with
    every handler callable. *)
Definition session_step (gated : bool) (s : props * world) (e : page_event)
    : props * world :=
  match e with
  | Ui e => (s.1, if gated then page_step s.1 s.2 e else ui_step s.1 s.2 e)
  | NewProps p => (p, s.2)
  end.

Definition session_run (gated : bool) (evs : list page_event)
    (s : props * world) : props * world :=
  foldl (session_step gated) s evs.

(** The part of a complete request that does not refer to the props:
    between one and six distinct seats, one complete passenger each. *)
Definition shaped_request (r : booking_request) : Prop :=
  seats r ≠ []
  ∧ length (seats r) ≤ 6
  ∧ NoDup (seats r)
  ∧ ∃ ds, passenger_details r = Obj <$> ds
          ∧ length ds = length (seats r)
          ∧ complete_roster ds.

(** What holds of the page at all times, whatever the props become. *)
Definition shape_inv (w : world) : Prop :=
  well_formed (comp w)
  ∧ (currentStep (comp w) = "seats"
     ∨ (currentStep (comp w) = "passengers" ∧ selectedSeats (comp w) ≠ [])
     ∨ (currentStep (comp w) = "payment" ∧ selectedSeats (comp w) ≠ []
        ∧ continue_disabled (comp w) = Some false))
  ∧ (∀ r, r ∈ posts (emitted w) → shaped_request r).

(** The trip as [HomePage] passes it after another bus was chosen, with A1
    booked. *)
Definition other_trip : props :=
  mkProps (Some "rider") "schedule-2" 650 [mkSeat "A1" true; seat_A2].

(** ** Booking lists: [MyBookings] and [AdminBookings] *)

(** What the two lists read of a booking. *)
Record booking_row := mkRow {
  row_id : string;
  row_status : string;
  row_can_cancel : bool
}.

(** The parameters of [GET /my-bookings?...] and [GET /admin/bookings?...]:
    [page] always, [status] when appended. *)
Record list_query := mkQuery {
  query_page : Z;
  query_status : option string
}.

(** The five [useState] cells, the same in both components. *)
Record list_state := mkList {
  bookings : list booking_row;
  list_loading : bool;
  status_filter : string;
  page : Z;
  totalPages : Z
}.

(** [useState([])], [useState(true)], [useState('all')], [useState(1)],
    [useState(1)]. *)
Definition initial_list : list_state := mkList [] true "all" 1 1.

Inductive fetch_result :=
| FetchOk (rows : list booking_row) (total_pages : Z)
| FetchFailed (detail : option string).

(** [refund] is [response.data.refund_amount] as the template literal
    prints it. *)
Inductive cancel_result :=
| CancelOk (refund : string)
| CancelFailed (detail : option string).

Inductive list_effect :=
| ListToast (t : toast_args)
| ListGet (q : list_query)
| CancelPost (id : string).

(** A list component with its requests: the fetches in flight, the
    cancellations in flight, each with the query its handler will refetch
    with (the [page] and [filter] of the render it was clicked in), and
    everything done so far. *)
Record list_world := mkListWorld {
  lst : list_state;
  fetches : list list_query;
  cancels : list (string * list_query);
  list_log : list list_effect
}.

(** [new URLSearchParams({ page: page.toString() })] and
    [if (filter !== 'all') params.append('status', filter)]. *)
Definition fetch_query (st : list_state) : list_query :=
  mkQuery (page st)
    (if decide (status_filter st = "all") then None else Some (status_filter st)).

(** [fetchBookings] up to the [await], for the given render. *)
Definition fetchBookings (q : list_query) (w : list_world) : list_world :=
  mkListWorld
    (mkList (bookings (lst w)) true (status_filter (lst w)) (page (lst w))
       (totalPages (lst w)))
    (fetches w ++ [q]) (cancels w) (list_log w ++ [ListGet q]).

(** [fetchBookings] after the [await]. *)
Definition fetchBookings_settled (r : fetch_result) (w : list_world) : list_world :=
  match r with
  | FetchOk rows total_pages =>
      mkListWorld
        (mkList rows false (status_filter (lst w)) (page (lst w)) total_pages)
        (fetches w) (cancels w) (list_log w)
  | FetchFailed detail =>
      mkListWorld
        (mkList (bookings (lst w)) false (status_filter (lst w)) (page (lst w))
           (totalPages (lst w)))
        (fetches w) (cancels w)
        (list_log w
         ++ [ListToast (mkToast "Failed to fetch bookings" detail (Some "destructive"))])
  end.

(** The component once mounted: the effect on [[filter, page]] has run. *)
Definition list_mounted : list_world :=
  fetchBookings (fetch_query initial_list) (mkListWorld initial_list [] [] []).

(** [setPage(v)] followed by the effect, which runs because [page]
    changed. *)
Definition setPage (v : Z) (w : list_world) : list_world :=
  let st := mkList (bookings (lst w)) (list_loading (lst w)) (status_filter (lst w))
              v (totalPages (lst w)) in
  if decide (v = page (lst w)) then w
  else fetchBookings (fetch_query st)
         (mkListWorld st (fetches w) (cancels w) (list_log w)).

(** [setFilter(v)] followed by the effect when [filter] changed. *)
Definition setFilter (v : string) (w : list_world) : list_world :=
  let st := mkList (bookings (lst w)) (list_loading (lst w)) v
              (page (lst w)) (totalPages (lst w)) in
  if decide (v = status_filter (lst w)) then w
  else fetchBookings (fetch_query st)
         (mkListWorld st (fetches w) (cancels w) (list_log w)).

(** Whether the pagination row is rendered: [totalPages > 1], and in
    [MyBookings] only below a list that is not empty. *)
Definition pagination_shown (admin : bool) (st : list_state) : bool :=
  (admin || negb (bool_decide (length (bookings st) = 0)))
  && bool_decide (1 < totalPages st)%Z.

(** Whether a row has its cancel button: [canCancel] on a passenger's card
    (line 454), [booking.status === 'confirmed'] in the admin table. *)
Definition cancel_shown (admin : bool) (row : booking_row) : bool :=
  if admin then bool_decide (row_status row = "confirmed")
  else bool_decide (row_status row = "confirmed") && row_can_cancel row.

(** [handleCancelBooking] after its [await]. *)
Definition handleCancelBooking_settled (q : list_query) (r : cancel_result)
    (w : list_world) : list_world :=
  match r with
  | CancelOk refund =>
      fetchBookings q
        (mkListWorld (lst w) (fetches w) (cancels w)
           (list_log w
            ++ [ListToast (mkToast "Booking cancelled successfully"
                             (Some (String.append "Refund amount: ₹" refund)) None)]))
  | CancelFailed detail =>
      mkListWorld (lst w) (fetches w) (cancels w)
        (list_log w
         ++ [ListToast (mkToast "Cancellation failed" detail (Some "destructive"))])
  end.

Inductive list_event :=
| PrevPage
| NextPage
| FilterTab (value : string)
| CancelBooking (i : nat)
| FetchSettled (i : nat) (r : fetch_result)
| CancelSettled (k : nat) (r : cancel_result).

(** One event.  While [loading] the component renders only its loading
    line, so nothing can be clicked. *)
Definition list_step (admin : bool) (w : list_world) (e : list_event) : list_world :=
  match e with
  | PrevPage =>
      if list_loading (lst w) then w
      else if pagination_shown admin (lst w)
              && negb (bool_decide (page (lst w) = 1%Z))
      then setPage (page (lst w) - 1)%Z w else w
  | NextPage =>
      if list_loading (lst w) then w
      else if pagination_shown admin (lst w)
              && negb (bool_decide (page (lst w) = totalPages (lst w)))
      then setPage (page (lst w) + 1)%Z w else w
  | FilterTab value =>
      if list_loading (lst w) then w
      else if bool_decide (value ∈ ["all"; "confirmed"; "cancelled"; "completed"])
      then setFilter value w else w
  | CancelBooking i =>
      if list_loading (lst w) then w
      else match bookings (lst w) !! i with
           | Some row =>
               if cancel_shown admin row then
                 mkListWorld (lst w) (fetches w)
                   (cancels w ++ [(row_id row, fetch_query (lst w))])
                   (list_log w ++ [CancelPost (row_id row)])
               else w
           | None => w
           end
  | FetchSettled i r =>
      match fetches w !! i with
      | Some _ =>
          fetchBookings_settled r
            (mkListWorld (lst w) (delete i (fetches w)) (cancels w) (list_log w))
      | None => w
      end
  | CancelSettled k r =>
      match cancels w !! k with
      | Some (_, q) =>
          handleCancelBooking_settled q r
            (mkListWorld (lst w) (fetches w) (delete k (cancels w)) (list_log w))
      | None => w
      end
  end.

Definition list_run (admin : bool) (evs : list list_event) (w : list_world)
    : list_world :=
  foldl (list_step admin) w evs.

(** A query any of the two servers' list endpoints expects. *)
Definition sound_query (q : list_query) : Prop :=
  (1 ≤ query_page q)%Z
  ∧ (query_status q = None
     ∨ ∃ s, s ∈ ["confirmed"; "cancelled"; "completed"] ∧ query_status q = Some s).

Definition list_inv (w : list_world) : Prop :=
  (1 ≤ page (lst w))%Z
  ∧ status_filter (lst w) ∈ ["all"; "confirmed"; "cancelled"; "completed"]
  ∧ (∀ c, c ∈ cancels w → sound_query c.2)
  ∧ (∀ q, ListGet q ∈ list_log w → sound_query q).

(** [getStatusColor(status)] of [BookingCard], lines 433-440. *)
Definition getStatusColor (s : string) : string :=
  if decide (s = "confirmed") then "bg-green-100 text-green-800"
  else if decide (s = "cancelled") then "bg-red-100 text-red-800"
  else if decide (s = "completed") then "bg-blue-100 text-blue-800"
  else "bg-gray-100 text-gray-800".

(** The class of the status badge in the admin table, lines 1008-1012. *)
Definition admin_status_color (s : string) : string :=
  if decide (s = "confirmed") then "bg-green-100 text-green-800"
  else if decide (s = "cancelled") then "bg-red-100 text-red-800"
  else "bg-blue-100 text-blue-800".

(** [s.slice(-n)] for [n > 0], on a string given as its sequence of UTF-16
    code units, which is what [slice] counts: the units from index
    [max (length - n) 0] to the end. *)
Definition slice_last (n : nat) (units : list N) : list N :=
  drop (length units - n) units.

(** [booking.id.slice(-8)], lines 469 and 989, on the code units of the
    id. *)
Definition short_id (id : list N) : list N := slice_last 8 id.

(** The amenity badges of a search result, lines 703-708:
    [amenities.slice(0, 3)] and, when [amenities.length > 3], a badge
    ["+" (amenities.length - 3)]. *)
Definition amenity_badges (amenities : list string) : list string * option nat :=
  (take 3 amenities,
   if decide (3 < length amenities) then Some (length amenities - 3) else None).

Definition some_rows : list booking_row :=
  [mkRow "64f1c0a2b7e94d10a3c5e811" "confirmed" true;
   mkRow "64f1c0a2b7e94d10a3c5e812" "cancelled" false].

(** ** Authentication: [AuthProvider], [ProtectedRoute] and the header *)

(** What the front end reads of [user]. *)
Record account := mkAccount {
  full_name : string;
  role : string
}.

(** The three [useState] cells of [AuthProvider]. *)
Record auth_state := mkAuth {
  auth_user : option account;
  token : option string;
  auth_loading : bool
}.

(** The provider with what it keeps outside React: the [token] entry of
    [localStorage], the default [Authorization] header of axios, and the
    number of [GET /profile] requests that have not settled. *)
Record auth_world := mkAuthWorld {
  auth : auth_state;
  stored_token : option string;
  authorization : option string;
  profile_requests : nat
}.

(** [`Bearer ${token}`] *)
Definition bearer (t : string) : string := String.append "Bearer " t.

Definition setAuthLoading (v : bool) (w : auth_world) : auth_world :=
  mkAuthWorld (mkAuth (auth_user (auth w)) (token (auth w)) v)
    (stored_token w) (authorization w) (profile_requests w).

(** The body of [useEffect(..., [token])], lines 41-48; [fetchProfile]
    starts a request. *)
Definition token_effect (w : auth_world) : auth_world :=
  if truthy (token (auth w)) then
    mkAuthWorld (auth w) (stored_token w)
      (Some (bearer (default "" (token (auth w))))) (S (profile_requests w))
  else setAuthLoading false w.

(** The effect runs after a render in which [token] has changed. *)
Definition after_render (old_token : option string) (w : auth_world) : auth_world :=
  if decide (token (auth w) = old_token) then w else token_effect w.

(** The provider once mounted, given what [localStorage.getItem('token')]
    returned. *)
Definition auth_mount (stored : option string) : auth_world :=
  token_effect (mkAuthWorld (mkAuth None stored true) stored None 0).

(** [ProfileSettled]: a [GET /profile] settles, with the profile or with an
    error.  [SignedIn]: the [POST] of [login] or [register] (the two
    continue alike) is fulfilled with a token and a user.  [SignInFailed]:
    it is rejected, and the function throws before touching anything. *)
Inductive auth_event :=
| ProfileSettled (r : option account)
| SignedIn (newToken : string) (a : account)
| SignInFailed
| Logout.

Definition auth_step (w : auth_world) (e : auth_event) : auth_world :=
  match e with
  | ProfileSettled r =>
      match profile_requests w with
      | 0 => w
      | S n =>
          match r with
          | Some a =>
              mkAuthWorld (mkAuth (Some a) (token (auth w)) false)
                (stored_token w) (authorization w) n
          | None =>
              after_render (token (auth w))
                (mkAuthWorld (mkAuth (auth_user (auth w)) None false) None None n)
          end
      end
  | SignedIn newToken a =>
      after_render (token (auth w))
        (mkAuthWorld (mkAuth (Some a) (Some newToken) (auth_loading (auth w)))
           (Some newToken) (Some (bearer newToken)) (profile_requests w))
  | SignInFailed => w
  | Logout =>
      after_render (token (auth w))
        (mkAuthWorld (mkAuth None None (auth_loading (auth w)))
           None None (profile_requests w))
  end.

Definition auth_run (evs : list auth_event) (w : auth_world) : auth_world :=
  foldl auth_step w evs.

Inductive route_outcome :=
| Spinner
| RedirectHome
| Children.

(** [ProtectedRoute], lines 1711-1729. *)
Definition ProtectedRoute (adminOnly : bool) (st : auth_state) : route_outcome :=
  if auth_loading st then Spinner
  else match auth_user st with
       | None => RedirectHome
       | Some a =>
           if adminOnly && negb (bool_decide (role a = "admin")) then RedirectHome
           else Children
       end.

(** [{user && (...)}] around the "My Bookings" button of the header. *)
Definition nav_my_bookings (st : auth_state) : bool :=
  bool_decide (is_Some (auth_user st)).

(** [{user?.role === 'admin' && (...)}] around the "Admin Panel" button. *)
Definition nav_admin_panel (st : auth_state) : bool :=
  match auth_user st with
  | Some a => bool_decide (role a = "admin")
  | None => false
  end.

Definition auth_inv (w : auth_world) : Prop :=
  token (auth w) = stored_token w
  ∧ (authorization w = None
     ∨ ∃ t, token (auth w) = Some t ∧ authorization w = Some (bearer t))
  ∧ (auth_loading (auth w) = true → 0 < profile_requests w).

Definition rider : account := mkAccount "Asha Rao" "user".

(** ** Searching and choosing a bus: [BusSearch] and [HomePage] *)

(** What the page reads of a search result. *)
Record found_bus := mkBus {
  found_schedule_id : string;
  found_price : Z
}.

(** [formData] of [BusSearch].  A date is kept as the day its
    [toISOString().split('T')[0]] gives; [None] is a cleared date. *)
Record search_form := mkForm {
  origin : string;
  destination : string;
  travel_date : option string
}.

(** The body of [POST /search-buses]. *)
Record search_request := mkSearch {
  search_origin : string;
  search_destination : string;
  search_date : string
}.

(** The [useState] cells of [HomePage]. *)
Record home_state := mkHome {
  searchResults : option (list found_bus);
  selectedBus : option found_bus;
  loaded_seats : list Seat;
  shown_booking : option booking;
  home_loading : bool
}.

Inductive home_effect :=
| HomeToast (t : toast_args)
| SearchPost (r : search_request)
| SeatsGet (schedule : string).

(** The page with its search form, the number of searches in flight, the
    seat requests in flight, each for the bus it was started for, and what
    was done so far. *)
Record home_world := mkHomeWorld {
  form : search_form;
  home : home_state;
  searches : nat;
  seat_fetches : list found_bus;
  home_log : list home_effect
}.

(** The [cities] of [BusSearch], lines 580-583. *)
Definition cities : list string :=
  ["Mumbai"; "Delhi"; "Bangalore"; "Chennai"; "Kolkata"; "Hyderabad";
   "Pune"; "Ahmedabad"; "Jaipur"; "Surat"; "Lucknow"; "Kanpur"].

(** [useState({ origin: '', destination: '', date: new Date() })] *)
Definition initial_form (today : string) : search_form :=
  mkForm "" "" (Some today).

Definition initial_home : home_state := mkHome None None [] None false.

Definition initial_home_world (today : string) : home_world :=
  mkHomeWorld (initial_form today) initial_home 0 [] [].

(** What [HomePage] renders, lines 1658-1707. *)
Inductive home_view :=
| SuccessView (b : booking)
| SeatView (bus : found_bus) (seats : list Seat)
| SearchView.

Definition home_view_of (st : home_state) : home_view :=
  match shown_booking st with
  | Some b => SuccessView b
  | None =>
      match selectedBus st with
      | Some bus => SeatView bus (loaded_seats st)
      | None => SearchView
      end
  end.

Definition setHomeLoading (v : bool) (st : home_state) : home_state :=
  mkHome (searchResults st) (selectedBus st) (loaded_seats st) (shown_booking st) v.

Definition log_home (e : home_effect) (w : home_world) : home_world :=
  mkHomeWorld (form w) (home w) (searches w) (seat_fetches w) (home_log w ++ [e]).

Definition with_home (f : home_state → home_state) (w : home_world) : home_world :=
  mkHomeWorld (form w) (f (home w)) (searches w) (seat_fetches w) (home_log w).

(** [error.response?.data?.detail || "Something went wrong"] *)
Definition search_failed_toast (detail : option string) : toast_args :=
  mkToast "Search failed"
    (Some (if truthy detail then default "" detail else "Something went wrong"))
    (Some "destructive").

(** [handleSearch(searchData)] up to the [await], lines 1608-1615.  Building
    the body calls [searchData.date.toISOString()], which throws inside the
    [try] when there is no date. *)
Definition handleSearch (data : search_form) (w : home_world) : home_world :=
  match travel_date data with
  | Some day =>
      let w := with_home (setHomeLoading true) w in
      mkHomeWorld (form w) (home w) (S (searches w)) (seat_fetches w)
        (home_log w ++ [SearchPost (mkSearch (origin data) (destination data) day)])
  | None =>
      with_home (setHomeLoading false)
        (log_home (HomeToast (search_failed_toast None))
           (with_home (setHomeLoading true) w))
  end.

(** [handleSubmit] of [BusSearch], lines 568-578, with [onSearch] bound to
    [handleSearch]. *)
Definition handleSubmit (w : home_world) : home_world :=
  if negb (truthy (Some (origin (form w)))) || negb (truthy (Some (destination (form w))))
  then log_home (HomeToast (mkToast "Please select both origin and destination cities"
                              None (Some "destructive"))) w
  else handleSearch (form w) w.

Inductive search_result :=
| SearchOk (buses : list found_bus)
| SearchFailed (detail : option string).

(** [handleSearch] after the [await], lines 1616-1627. *)
Definition handleSearch_settled (r : search_result) (w : home_world) : home_world :=
  match r with
  | SearchOk buses =>
      with_home (λ st, mkHome (Some buses) None (loaded_seats st) None false) w
  | SearchFailed detail =>
      with_home (setHomeLoading false)
        (log_home (HomeToast (search_failed_toast detail)) w)
  end.

(** [handleSelectBus(bus)] up to the [await], lines 1630-1638. *)
Definition handleSelectBus (user : option account) (bus : found_bus)
    (w : home_world) : home_world :=
  match user with
  | None =>
      log_home (HomeToast (mkToast "Please login to select seats" None
                             (Some "destructive"))) w
  | Some _ =>
      let w := with_home (setHomeLoading true) w in
      mkHomeWorld (form w) (home w) (searches w) (seat_fetches w ++ [bus])
        (home_log w ++ [SeatsGet (found_schedule_id bus)])
  end.

Inductive seats_result :=
| SeatsOk (seats : list Seat)
| SeatsFailed (detail : option string).

(** [handleSelectBus(bus)] after the [await], lines 1639-1649. *)
Definition handleSelectBus_settled (bus : found_bus) (r : seats_result)
    (w : home_world) : home_world :=
  match r with
  | SeatsOk seats =>
      with_home (λ st, mkHome (searchResults st) (Some bus) seats
                         (shown_booking st) false) w
  | SeatsFailed detail =>
      with_home (setHomeLoading false)
        (log_home (HomeToast (mkToast "Failed to load seats" detail
                                (Some "destructive"))) w)
  end.

(** [handleBookingComplete(bookingData)], lines 1652-1656. *)
Definition handleBookingComplete (b : booking) (st : home_state) : home_state :=
  mkHome None None (loaded_seats st) (Some b) (home_loading st).

Inductive home_event :=
| PickOrigin (city : string)
| PickDestination (city : string)
| PickDate (d : option string)
| SubmitSearch
| SelectSeats (i : nat)
| BackToResults
| BookingDone (b : booking)
| SearchMore
| SearchSettled (r : search_result)
| SeatsSettled (k : nat) (r : seats_result).

(** What an event does when its control is on the page.  The search form
    and the results are part of the search view, the results only when
    [searchResults && !loading]; "Back to Results" and the seat selection,
    which reports a booking through [onBookingComplete], are the seat view;
    "Search More Buses" is the success view. *)
Definition home_dispatch (user : option account) (w : home_world)
    (e : home_event) : home_world :=
  match e, home_view_of (home w) with
  | PickOrigin city, SearchView =>
      if bool_decide (city ∈ cities) then
        mkHomeWorld (mkForm city (destination (form w)) (travel_date (form w)))
          (home w) (searches w) (seat_fetches w) (home_log w)
      else w
  | PickDestination city, SearchView =>
      if bool_decide (city ∈ cities) then
        mkHomeWorld (mkForm (origin (form w)) city (travel_date (form w)))
          (home w) (searches w) (seat_fetches w) (home_log w)
      else w
  | PickDate d, SearchView =>
      mkHomeWorld (mkForm (origin (form w)) (destination (form w)) d)
        (home w) (searches w) (seat_fetches w) (home_log w)
  | SubmitSearch, SearchView => handleSubmit w
  | SelectSeats i, SearchView =>
      if home_loading (home w) then w
      else match searchResults (home w) with
           | Some buses =>
               match buses !! i with
               | Some bus => handleSelectBus user bus w
               | None => w
               end
           | None => w
           end
  | BackToResults, SeatView _ _ =>
      with_home (λ st, mkHome (searchResults st) None (loaded_seats st)
                         (shown_booking st) (home_loading st)) w
  | BookingDone b, SeatView _ _ => with_home (handleBookingComplete b) w
  | SearchMore, SuccessView _ =>
      with_home (λ st, mkHome (searchResults st) (selectedBus st) (loaded_seats st)
                         None (home_loading st)) w
  | SearchSettled r, _ =>
      match searches w with
      | 0 => w
      | S n =>
          handleSearch_settled r
            (mkHomeWorld (form w) (home w) n (seat_fetches w) (home_log w))
      end
  | SeatsSettled k r, _ =>
      match seat_fetches w !! k with
      | Some bus =>
          handleSelectBus_settled bus r
            (mkHomeWorld (form w) (home w) (searches w)
               (delete k (seat_fetches w)) (home_log w))
      | None => w
      end
  | _, _ => w
  end.

(** [BusSearch] is mounted only in the search view: its form state is
    dropped when the page shows something else and starts afresh after. *)
Definition home_step (user : option account) (today : string)
    (w : home_world) (e : home_event) : home_world :=
  let w' := home_dispatch user w e in
  match home_view_of (home w') with
  | SearchView => w'
  | _ => mkHomeWorld (initial_form today) (home w') (searches w')
           (seat_fetches w') (home_log w')
  end.

Definition home_run (user : option account) (today : string)
    (evs : list home_event) (w : home_world) : home_world :=
  foldl (home_step user today) w evs.

Definition home_inv (w : home_world) : Prop :=
  (origin (form w) = "" ∨ origin (form w) ∈ cities)
  ∧ (destination (form w) = "" ∨ destination (form w) ∈ cities)
  ∧ (∀ r, SearchPost r ∈ home_log w →
       search_origin r ∈ cities ∧ search_destination r ∈ cities).

Definition guest_inv (w : home_world) : Prop :=
  selectedBus (home w) = None
  ∧ seat_fetches w = []
  ∧ (∀ schedule, SeatsGet schedule ∉ home_log w).

Definition night_bus : found_bus := mkBus "schedule-1" 500.

(** * Properties *)

(** ** The array primitives *)

Section primitives.
Implicit Types (a : list slot) (ds : list (gmap string string)).
Implicit Types (d : gmap string string) (i j : nat).

Lemma js_get_dense ds i : js_get (Obj <$> ds) i = ds !! i.
Proof. unfold js_get. rewrite list_lookup_fmap. by destruct (ds !! i). Qed.

Lemma js_get_ge a i : length a ≤ i → js_get a i = None.
Proof. intros Hi. unfold js_get. by rewrite lookup_ge_None_2. Qed.

Lemma length_js_spread a : length (js_spread a) = length a.
Proof. unfold js_spread. by rewrite length_fmap. Qed.

Lemma js_get_spread a i : js_get (js_spread a) i = js_get a i.
Proof.
  unfold js_get, js_spread. rewrite list_lookup_fmap.
  destruct (a !! i) as [[| |d]|]; done.
Qed.

Lemma js_spread_dense ds : js_spread (Obj <$> ds) = Obj <$> ds.
Proof. unfold js_spread. rewrite <- list_fmap_compose. by apply list_fmap_ext. Qed.

Lemma js_set_lt a i x : i < length a → js_set a i x = <[i := x]> a.
Proof. intros Hi. unfold js_set. by rewrite decide_True. Qed.

Lemma js_set_ge a i x :
  length a ≤ i → js_set a i x = a ++ replicate (i - length a) Hole ++ [x].
Proof. intros Hi. unfold js_set. rewrite decide_False; [done | lia]. Qed.

Lemma length_js_set a i x : length (js_set a i x) = max (length a) (S i).
Proof.
  unfold js_set. case_decide.
  - rewrite length_insert. lia.
  - rewrite !length_app, length_replicate. simpl. lia.
Qed.

Lemma js_set_lookup_eq a i x : js_set a i x !! i = Some x.
Proof.
  unfold js_set. case_decide.
  - by apply list_lookup_insert_eq.
  - rewrite lookup_app_r by lia.
    rewrite lookup_app_r by (rewrite length_replicate; lia).
    rewrite length_replicate.
    by replace (i - length a - (i - length a)) with 0 by lia.
Qed.

Lemma js_set_lookup_old a i j x :
  j ≠ i → j < length a → js_set a i x !! j = a !! j.
Proof.
  intros Hne Hj. unfold js_set. case_decide.
  - by apply list_lookup_insert_ne.
  - by rewrite lookup_app_l.
Qed.

Lemma js_set_lookup_gap a i j x :
  length a ≤ j → j < i → js_set a i x !! j = Some Hole.
Proof.
  intros Hj Hji. rewrite js_set_ge by lia.
  rewrite lookup_app_r by lia.
  rewrite lookup_app_l by (rewrite length_replicate; lia).
  apply lookup_replicate_2. lia.
Qed.

Lemma js_get_set_ne a i j x : j ≠ i → js_get (js_set a i x) j = js_get a j.
Proof.
  intros Hne. unfold js_get.
  destruct (decide (j < length a)) as [Hj|Hj].
  { by rewrite js_set_lookup_old. }
  rewrite (lookup_ge_None_2 a j) by lia.
  destruct (decide (j < i)) as [Hji|Hji].
  { rewrite js_set_lookup_gap; [done | lia | done]. }
  rewrite lookup_ge_None_2; [done |]. rewrite length_js_set. lia.
Qed.

Lemma js_set_dense ds i d :
  i < length ds → js_set (Obj <$> ds) i (Obj d) = Obj <$> <[i := d]> ds.
Proof.
  intros Hi. rewrite js_set_lt by (by rewrite length_fmap).
  by rewrite list_fmap_insert.
Qed.

Lemma filter_ne_absent (s : string) (l : list string) :
  s ∉ l → filter (λ x, x ≠ s) l = l.
Proof.
  induction l as [|x l IH]; [done|]. intros Hs.
  apply not_elem_of_cons in Hs as [Hx Hl].
  rewrite filter_cons_True by done. by rewrite IH.
Qed.

Lemma filter_ne_self (s : string) : filter (λ x, x ≠ s) [s] = [].
Proof. by rewrite filter_cons_False by (intros H; by apply H). Qed.

End primitives.

(** ** Seat toggling *)

Section toggling.
Implicit Types (st : state) (seat : Seat) (ds : list (gmap string string)).
Implicit Types (d : gmap string string).

Lemma resync_selectedSeats new st : selectedSeats (resync new st) = new.
Proof. done. Qed.

Lemma resync_length new st :
  length (passengerDetails (resync new st)) = length new.
Proof. simpl. by rewrite length_imap. Qed.

Lemma positional_nil_S n : positional (S n) [] = blank_detail :: positional n [].
Proof. unfold positional. rewrite !take_nil. simpl. by rewrite Nat.sub_0_r. Qed.

Lemma positional_cons_S n d ds : positional (S n) (d :: ds) = d :: positional n ds.
Proof. done. Qed.

Lemma imap_positional (new : list string) ds :
  imap (λ index (_ : string),
          Obj (default blank_detail (js_get (Obj <$> ds) index))) new
  = Obj <$> positional (length new) ds.
Proof.
  revert ds. induction new as [|s new IH]; intros ds; [done|].
  rewrite imap_cons. destruct ds as [|d ds]; simpl length.
  - rewrite positional_nil_S, fmap_cons. f_equal.
    rewrite <- IH. by apply imap_ext.
  - rewrite positional_cons_S, !fmap_cons. f_equal.
    rewrite <- IH. by apply imap_ext.
Qed.

Lemma resync_dense new st ds :
  dense (passengerDetails st) ds →
  dense (passengerDetails (resync new st)) (positional (length new) ds).
Proof. unfold dense. intros Hd. simpl. rewrite Hd. apply imap_positional. Qed.

Lemma positional_length n ds : length (positional n ds) = n.
Proof.
  unfold positional. rewrite length_app, length_take, length_replicate. lia.
Qed.

Lemma positional_all ds : positional (length ds) ds = ds.
Proof.
  unfold positional. rewrite firstn_all, Nat.sub_diag. simpl.
  by rewrite app_nil_r.
Qed.

Lemma positional_grow ds :
  positional (S (length ds)) ds = ds ++ [blank_detail].
Proof.
  unfold positional. rewrite take_ge by lia.
  by replace (S (length ds) - length ds) with 1 by lia.
Qed.

Lemma positional_shrink n ds d :
  n ≤ length ds → positional n (ds ++ [d]) = take n ds.
Proof.
  intros Hn. unfold positional. rewrite take_app_le by done.
  rewrite length_app. simpl.
  replace (n - (length ds + 1)) with 0 by lia. simpl.
  by rewrite app_nil_r.
Qed.

(** The three outcomes of a click on a seat that is not booked. *)
Lemma handleSeatClick_deselect seat st :
  is_booked seat = false →
  seat_number seat ∈ selectedSeats st →
  handleSeatClick seat st
  = (resync (filter (λ s, s ≠ seat_number seat) (selectedSeats st)) st, []).
Proof.
  intros Hb Hin. unfold handleSeatClick. rewrite Hb.
  by rewrite bool_decide_eq_true_2.
Qed.

Lemma handleSeatClick_full seat st :
  is_booked seat = false →
  seat_number seat ∉ selectedSeats st →
  6 ≤ length (selectedSeats st) →
  handleSeatClick seat st = (st, [Toast max_seats_toast]).
Proof.
  intros Hb Hin Hlen. unfold handleSeatClick. rewrite Hb.
  rewrite bool_decide_eq_false_2 by done. by rewrite decide_True.
Qed.

Lemma handleSeatClick_select seat st :
  is_booked seat = false →
  seat_number seat ∉ selectedSeats st →
  length (selectedSeats st) < 6 →
  handleSeatClick seat st
  = (resync (selectedSeats st ++ [seat_number seat]) st, []).
Proof.
  intros Hb Hin Hlen. unfold handleSeatClick. rewrite Hb.
  rewrite bool_decide_eq_false_2 by done. rewrite decide_False; [done | lia].
Qed.

Lemma handleSeatClick_booked seat st :
  is_booked seat = true → handleSeatClick seat st = (st, []).
Proof. intros Hb. unfold handleSeatClick. by rewrite Hb. Qed.

(** Every click either leaves the state alone or goes through [resync]. *)
Lemma handleSeatClick_cases seat st :
  (handleSeatClick seat st).1 = st
  ∨ (∃ new, (handleSeatClick seat st).1 = resync new st
            ∧ length new ≤ max (length (selectedSeats st) - 1) 6
            ∧ (length (selectedSeats st) ≤ 6 → length new ≤ 6)).
Proof.
  unfold handleSeatClick. destruct (is_booked seat); [by left|].
  case_bool_decide as Hin.
  - right. eexists. split; [done|].
    assert (length (filter (λ s, s ≠ seat_number seat) (selectedSeats st))
            < length (selectedSeats st)) as Hlt.
    { apply (length_filter_lt _ _ (seat_number seat)); [done|].
      intros H. by apply H. }
    split; [|intros ?]; lia.
  - case_decide; [by left|]. right. eexists. split; [done|].
    rewrite length_app. simpl. lia.
Qed.

Lemma handleSeatClick_aligned seat st :
  length (passengerDetails st) = length (selectedSeats st) →
  length (passengerDetails (handleSeatClick seat st).1)
  = length (selectedSeats (handleSeatClick seat st).1).
Proof.
  intros Hal. destruct (handleSeatClick_cases seat st) as [->|(new & -> & _)].
  - done.
  - by rewrite resync_length, resync_selectedSeats.
Qed.

Lemma handleSeatClick_capacity seat st :
  length (selectedSeats st) ≤ 6 →
  length (selectedSeats (handleSeatClick seat st).1) ≤ 6.
Proof.
  intros Hcap. destruct (handleSeatClick_cases seat st) as [->|(new & -> & _ & Hn)].
  - done.
  - rewrite resync_selectedSeats. by apply Hn.
Qed.

Lemma handleSeatClick_isLoading seat st :
  isLoading (handleSeatClick seat st).1 = isLoading st.
Proof. by destruct (handleSeatClick_cases seat st) as [->|(new & -> & _)]. Qed.

Lemma handleSeatClick_currentStep seat st :
  currentStep (handleSeatClick seat st).1 = currentStep st.
Proof. by destruct (handleSeatClick_cases seat st) as [->|(new & -> & _)]. Qed.

Lemma handleSeatClick_posts seat st : posts (handleSeatClick seat st).2 = [].
Proof.
  unfold handleSeatClick. destruct (is_booked seat); [done|].
  case_bool_decide; [done|]. by case_decide.
Qed.

(** An invariant of single clicks is an invariant of click sequences. *)
Lemma toggles_invariant (I : state → Prop) :
  (∀ seat st, I st → I (handleSeatClick seat st).1) →
  ∀ clicks st, I st → I (toggles clicks st).
Proof.
  intros Hstep clicks. induction clicks as [|seat clicks IH]; intros st HI.
  - done.
  - simpl. apply IH. by apply Hstep.
Qed.

End toggling.

(** ** Editing passenger details *)

Section editing.
Implicit Types (st : state) (ds : list (gmap string string)).
Implicit Types (d : gmap string string) (index : nat) (field value : string).

Lemma handlePassengerDetailChange_frame index field value st :
  selectedSeats (handlePassengerDetailChange index field value st) = selectedSeats st
  ∧ currentStep (handlePassengerDetailChange index field value st) = currentStep st
  ∧ isLoading (handlePassengerDetailChange index field value st) = isLoading st.
Proof. done. Qed.

Lemma handlePassengerDetailChange_length index field value st :
  length (passengerDetails (handlePassengerDetailChange index field value st))
  = max (length (passengerDetails st)) (S index).
Proof. simpl. by rewrite length_js_set, length_js_spread. Qed.

Lemma handlePassengerDetailChange_at index field value st :
  js_get (passengerDetails (handlePassengerDetailChange index field value st)) index
  = Some (<[field := value]> (default ∅ (js_get (passengerDetails st) index))).
Proof.
  simpl. unfold js_get at 1. rewrite js_set_lookup_eq.
  by rewrite js_get_spread.
Qed.

Lemma handlePassengerDetailChange_other index field value st j :
  j ≠ index →
  js_get (passengerDetails (handlePassengerDetailChange index field value st)) j
  = js_get (passengerDetails st) j.
Proof. intros Hne. simpl. by rewrite js_get_set_ne, js_get_spread. Qed.

Lemma handlePassengerDetailChange_dense index field value st ds d :
  dense (passengerDetails st) ds →
  ds !! index = Some d →
  dense (passengerDetails (handlePassengerDetailChange index field value st))
        (<[index := <[field := value]> d]> ds).
Proof.
  unfold dense. intros Hd Hi. simpl. rewrite Hd, js_spread_dense, js_get_dense, Hi.
  apply js_set_dense. by eapply lookup_lt_Some.
Qed.

End editing.

(** ** The completeness gate *)

Section gate.
Implicit Types (st : state) (ds : list (gmap string string)).
Implicit Types (d : gmap string string).

Lemma truthy_shown d field : truthy (d !! field) = false ↔ shown d field = "".
Proof.
  unfold truthy, shown. destruct (d !! field) as [s|]; simpl; [|done].
  rewrite negb_false_iff. apply bool_decide_eq_true.
Qed.

Lemma missing_false d :
  shown d "name" ≠ "" → shown d "age" ≠ "" →
  missing_name_or_age (Obj d) = Some false.
Proof.
  intros Hn Ha. simpl. f_equal.
  destruct (truthy (d !! "name")) eqn:En; [|by apply truthy_shown in En].
  destruct (truthy (d !! "age")) eqn:Ea; [done|by apply truthy_shown in Ea].
Qed.

Lemma missing_true d :
  shown d "name" = "" ∨ shown d "age" = "" →
  missing_name_or_age (Obj d) = Some true.
Proof.
  intros [H|H]; apply truthy_shown in H; simpl; rewrite H; [done|].
  by rewrite orb_true_r.
Qed.

Lemma js_some_dense_true ds :
  (∃ d, d ∈ ds ∧ (shown d "name" = "" ∨ shown d "age" = "")) →
  js_some missing_name_or_age (Obj <$> ds) = Some true.
Proof.
  intros (d & Hin & Hd). induction ds as [|d' ds IH]; [by apply elem_of_nil in Hin|].
  rewrite fmap_cons. cbn [js_some].
  destruct (missing_name_or_age (Obj d')) as [[]|] eqn:E; [done| |done].
  apply elem_of_cons in Hin as [->|Hin]; [|by apply IH].
  by rewrite (missing_true d') in E.
Qed.

Lemma js_some_dense_false ds :
  (∀ d, d ∈ ds → shown d "name" ≠ "" ∧ shown d "age" ≠ "") →
  js_some missing_name_or_age (Obj <$> ds) = Some false.
Proof.
  induction ds as [|d ds IH]; intros Hall; [done|].
  rewrite fmap_cons. cbn [js_some].
  destruct (Hall d) as [Hn Ha]; [by left|].
  rewrite (missing_false d) by done.
  apply IH. intros d' Hin. apply Hall. by right.
Qed.

Lemma positive_age_nonempty s : positive_age s → s ≠ "".
Proof. intros (n & Hp & _) ->. done. Qed.

Lemma missing_gender d g :
  missing_name_or_age (Obj (<["gender" := g]> d)) = missing_name_or_age (Obj d).
Proof. simpl. by rewrite !lookup_insert_ne. Qed.

Lemma js_some_gender ds index d g :
  ds !! index = Some d →
  js_some missing_name_or_age (Obj <$> <[index := <["gender" := g]> d]> ds)
  = js_some missing_name_or_age (Obj <$> ds).
Proof.
  revert index. induction ds as [|d' ds IH]; intros [|index] Hi; try done.
  - simplify_eq/=. by rewrite !lookup_insert_ne.
  - change (<[S index := ?x]> (d' :: ds)) with (d' :: <[index := x]> ds).
    rewrite !fmap_cons. cbn [js_some]. by rewrite (IH index Hi).
Qed.

End gate.

(** ** Submitting *)

Section submitting.
Implicit Types (st : state) (w : world) (p : props).

Lemma dispatch_silent (h : state → state * list effect) w :
  isLoading (h (comp w)).1 = isLoading (comp w) →
  posts (h (comp w)).2 = [] →
  submit_inv w → submit_inv (dispatch h w).
Proof.
  intros Hl Hp. unfold submit_inv, dispatch. simpl.
  by rewrite Hl, Hp, app_nil_r.
Qed.

Lemma clickContinueToPayment_isLoading st :
  isLoading (clickContinueToPayment st) = isLoading st.
Proof. unfold clickContinueToPayment. by destruct (continue_disabled st) as [[]|]. Qed.

Lemma clickTab_isLoading value st : isLoading (clickTab value st) = isLoading st.
Proof. unfold clickTab. by destruct (tab_disabled value st) as [[]|]. Qed.

Lemma clickContinueToPassengers_isLoading st :
  isLoading (clickContinueToPassengers st) = isLoading st.
Proof. unfold clickContinueToPassengers. by case_decide. Qed.

Lemma clickPay_submit_inv p w : submit_inv w → submit_inv (dispatch (clickPay p) w).
Proof.
  unfold submit_inv, dispatch, clickPay, handleBooking.
  intros [[Hl Hf]|[Hl [r Hf]]]; rewrite Hl, Hf.
  - destruct (user p); simpl; [right; eauto | by left].
  - right. simpl. eauto.
Qed.

Lemma ui_step_submit_inv p w e : submit_inv w → submit_inv (ui_step p w e).
Proof.
  intros Hinv. destruct e as [seat|index field value| | |value| |i r]; simpl.
  - destruct (is_booked seat); [done|].
    apply dispatch_silent; [apply handleSeatClick_isLoading | apply handleSeatClick_posts | done].
  - case_decide; [|done]. by apply dispatch_silent.
  - apply dispatch_silent; [apply clickContinueToPassengers_isLoading | done | done].
  - apply dispatch_silent; [apply clickContinueToPayment_isLoading | done | done].
  - apply dispatch_silent; [apply clickTab_isLoading | done | done].
  - by apply clickPay_submit_inv.
  - destruct (in_flight w !! i) as [r0|] eqn:Hi; [|done].
    destruct Hinv as [[_ Hf]|[_ [r1 Hf]]]; rewrite Hf in Hi; [done|].
    destruct i as [|i]; [|done].
    left. unfold dispatch. rewrite Hf. by destruct r.
Qed.

Lemma ui_run_submit_inv p evs w : submit_inv w → submit_inv (ui_run p evs w).
Proof.
  revert w. induction evs as [|e evs IH]; intros w Hinv; [done|].
  simpl. apply IH. by apply ui_step_submit_inv.
Qed.

End submitting.

(** ** Reachable states *)

Section reachable.
Implicit Types (st : state) (w : world) (p : props).

Lemma well_formed_same st st' :
  selectedSeats st' = selectedSeats st →
  passengerDetails st' = passengerDetails st →
  well_formed st → well_formed st'.
Proof. unfold well_formed. by intros -> ->. Qed.

Lemma resync_well_formed new st :
  length new ≤ 6 → NoDup new →
  (∃ ds, dense (passengerDetails st) ds) →
  well_formed (resync new st).
Proof.
  intros Hlen Hnd [ds Hd]. exists (positional (length new) ds).
  split; [by apply resync_dense|].
  by rewrite positional_length, resync_selectedSeats.
Qed.

Lemma handleSeatClick_well_formed seat st :
  well_formed st → well_formed (handleSeatClick seat st).1.
Proof.
  intros Hwf. pose proof Hwf as (ds & Hd & Hal & Hcap & Hnd).
  unfold handleSeatClick. destruct (is_booked seat); [done|].
  case_bool_decide as Hin; simpl.
  - apply resync_well_formed; [|by apply NoDup_filter|by exists ds].
    pose proof (length_filter (λ s, s ≠ seat_number seat) (selectedSeats st)). lia.
  - case_decide as Hfull; [done|]. simpl.
    apply resync_well_formed; [| |by exists ds].
    + rewrite length_app. simpl. lia.
    + apply NoDup_app. split; [done|]. split; [|apply NoDup_singleton].
      intros s Hs ->%list_elem_of_singleton. done.
Qed.

Lemma handlePassengerDetailChange_well_formed index field value st :
  index < length (selectedSeats st) →
  well_formed st →
  well_formed (handlePassengerDetailChange index field value st).
Proof.
  intros Hi (ds & Hd & Hal & Hcap & Hnd).
  destruct (lookup_lt_is_Some_2 ds index) as [d Hlook]; [lia|].
  exists (<[index := <[field := value]> d]> ds).
  split; [by apply handlePassengerDetailChange_dense|].
  by rewrite length_insert.
Qed.

Lemma ui_step_well_formed p w e :
  well_formed (comp w) → well_formed (comp (ui_step p w e)).
Proof.
  intros Hwf. destruct e as [seat|index field value| | |value| |i r]; simpl.
  - destruct (is_booked seat); [done|]. by apply handleSeatClick_well_formed.
  - case_decide; [|done]. by apply handlePassengerDetailChange_well_formed.
  - unfold clickContinueToPassengers. by case_decide.
  - unfold clickContinueToPayment. by destruct (continue_disabled _) as [[]|].
  - unfold clickTab. by destruct (tab_disabled _ _) as [[]|].
  - unfold clickPay, handleBooking. destruct (isLoading _); [done|].
    by destruct (user p).
  - destruct (in_flight w !! i); [|done]. by destruct r.
Qed.

(** Whatever happens to a mounted component, its state keeps one entered
    detail per selected seat, at most 6 seats and no seat twice. *)
Lemma ui_run_well_formed p evs :
  well_formed (comp (ui_run p evs initial_world)).
Proof.
  assert (∀ w, well_formed (comp w) → well_formed (comp (ui_run p evs w))) as Hrun.
  { induction evs as [|e evs IH]; intros w Hwf; [done|].
    simpl. apply IH. by apply ui_step_well_formed. }
  apply Hrun. exists []. repeat split; simpl; [lia|apply NoDup_nil_2].
Qed.

End reachable.

(** * The wizard's properties *)

Lemma state_eta (st : state) :
  st = mkState (selectedSeats st) (passengerDetails st) (currentStep st) (isLoading st).
Proof. by destruct st. Qed.

Lemma world_eta (w : world) : w = mkWorld (comp w) (in_flight w) (emitted w).
Proof. by destruct w. Qed.

(** Deselecting a seat keeps the first entries of the roster, whichever
    seat was removed. *)
Lemma deselect_positional (seat : Seat) (st : state) (ds : list (gmap string string)) :
  is_booked seat = false →
  seat_number seat ∈ selectedSeats st →
  dense (passengerDetails st) ds →
  dense (passengerDetails (handleSeatClick seat st).1)
        (positional (length (selectedSeats (handleSeatClick seat st).1)) ds).
Proof.
  intros Hb Hin Hd. rewrite handleSeatClick_deselect by done. simpl fst.
  rewrite resync_selectedSeats. by apply resync_dense.
Qed.

(** C1: with A1 and A2 selected and both details entered, toggling A1 off
    leaves the selection [A2], but the roster is rebuilt by position: index 0
    still holds the detail entered for A1 and the one entered for A2 is
    gone, so the card of A2 no longer shows the detail entered for it. *)
Theorem C1_deselect_keeps_detail_by_position :
  handleSeatClick seat_A1 two_selected
  = (mkState ["A2"] [Obj alice] "passengers" false, [])
  ∧ detail_of_seat two_selected "A2" = Some bob
  ∧ detail_of_seat (handleSeatClick seat_A1 two_selected).1 "A2" = Some alice
  ∧ alice ≠ bob.
Proof.
  repeat split.
  intros Heq. apply (f_equal (λ d, d !! "name")) in Heq. done.
Qed.

(** C2, as the claim states it, fails: the handler does not look at
    [isLoading]; invoked while a request is outstanding it posts again and
    two requests are in flight. *)
Lemma C2_counterexample :
  let w1 := ui_step trip (mkWorld two_selected [] []) PayButton in
  let w2 := dispatch (handleBooking trip) w1 in
  isLoading (comp w1) = true
  ∧ length (in_flight w1) = 1
  ∧ posts (handleBooking trip (comp w1)).2 ≠ []
  ∧ length (in_flight w2) = 2.
Proof. repeat split; by vm_compute. Qed.

(** C2, amended: through the page at most one booking request is in flight.
    Whatever the user does, either nothing is outstanding and [isLoading] is
    false, or exactly one request is outstanding, [isLoading] is true, and a
    click on the pay button (disabled by [isLoading]) changes nothing and
    posts nothing.  The handler itself posts a request for a logged-in user
    whatever [isLoading] is. *)
Theorem C2_pay_button_blocks_second_submit (p : props) (evs : list ui_event) :
  let w := ui_run p evs initial_world in
  ((in_flight w = [] ∧ isLoading (comp w) = false)
   ∨ (∃ r, in_flight w = [r] ∧ isLoading (comp w) = true
           ∧ ui_step p w PayButton = w))
  ∧ (∀ u st,
       posts (handleBooking (mkProps (Some u) (bus_schedule_id p) (bus_price p)
                                     (seat_map p)) st).2
       = [mkRequest (bus_schedule_id p) (selectedSeats st) (passengerDetails st)]).
Proof.
  intros w. split; [|done].
  assert (submit_inv w) as [[Hl Hf]|[Hl [r Hf]]].
  { apply ui_run_submit_inv. by left. }
  - by left.
  - right. exists r. split; [done|]. split; [done|].
    simpl. unfold dispatch, clickPay. rewrite Hl. simpl.
    rewrite !app_nil_r. symmetry. apply world_eta.
Qed.

(** C3: the step to payment is not refused for a non-positive age.  With a
    name entered and the age typed as 0, which is not a positive age, the
    "Continue to Payment" button is enabled and a click moves the wizard
    from the passenger form to payment: the gate only tests that the age
    string is not empty, while the age input itself declares [min="1"],
    [max="100"] and [required] (lines 1444-1453). *)
Theorem C3_age_zero_reaches_payment :
  ¬ positive_age (shown (<["age" := "0"]> alice) "age")
  ∧ continue_disabled age_zero = Some false
  ∧ currentStep age_zero = "passengers"
  ∧ currentStep (clickContinueToPayment age_zero) = "payment".
Proof.
  repeat split. intros (n & Hp & Hn).
  vm_compute in Hp. simplify_eq. lia.
Qed.

(** What the gate does enforce: for a roster of entered details, the step
    from the passenger form to payment is refused, by the button and by the tab
    trigger alike, whenever some entry has an empty name or an empty age; it
    is taken once every entry has a non-empty name and a parseable positive
    age (for the tab trigger, with a seat selected); and changing a gender
    never changes the gate. *)
Theorem C3_payment_gate (st : state) (ds : list (gmap string string))
    (Hd : dense (passengerDetails st) ds) :
  ((∃ d, d ∈ ds ∧ (shown d "name" = "" ∨ shown d "age" = "")) →
     continue_disabled st = Some true
     ∧ clickContinueToPayment st = st
     ∧ clickTab "payment" st = st)
  ∧ ((∀ d, d ∈ ds → shown d "name" ≠ "" ∧ positive_age (shown d "age")) →
     continue_disabled st = Some false
     ∧ clickContinueToPayment st = setCurrentStep "payment" st
     ∧ (selectedSeats st ≠ [] → clickTab "payment" st = setCurrentStep "payment" st))
  ∧ (∀ index g, index < length ds →
     continue_disabled (handlePassengerDetailChange index "gender" g st)
     = continue_disabled st).
Proof.
  split; [|split].
  - intros Hbad.
    assert (continue_disabled st = Some true) as Hdis.
    { unfold continue_disabled. rewrite Hd. by apply js_some_dense_true. }
    split; [done|]. unfold clickContinueToPayment, clickTab, tab_disabled.
    rewrite Hdis. simpl. by case_decide.
  - intros Hok.
    assert (continue_disabled st = Some false) as Hdis.
    { unfold continue_disabled. rewrite Hd. apply js_some_dense_false.
      intros d Hin. destruct (Hok d Hin) as [Hn Ha].
      split; [done|]. by apply positive_age_nonempty. }
    split; [done|]. unfold clickContinueToPayment, clickTab, tab_disabled.
    rewrite Hdis. simpl. split; [done|]. intros Hsel.
    rewrite decide_False; [done|]. by destruct (selectedSeats st).
  - intros index g Hi.
    destruct (lookup_lt_is_Some_2 ds index Hi) as [d Hlook].
    unfold continue_disabled.
    rewrite (handlePassengerDetailChange_dense index "gender" g st ds d Hd Hlook).
    rewrite Hd. by apply js_some_gender.
Qed.

Lemma C3_payment_gate_witness :
  clickContinueToPayment two_selected = setCurrentStep "payment" two_selected
  ∧ clickContinueToPayment (resync ["A1"; "A2"] one_selected)
    = resync ["A1"; "A2"] one_selected.
Proof.
  split.
  - destruct (C3_payment_gate two_selected [alice; bob] eq_refl) as (_ & Hok & _).
    refine (proj1 (proj2 (Hok _))). intros d Hin.
    apply elem_of_cons in Hin as [->|Hin].
    { split; [done|]. exists 30%Z. by split. }
    apply elem_of_cons in Hin as [->|Hin].
    { split; [done|]. exists 41%Z. by split. }
    by apply elem_of_nil in Hin.
  - destruct (C3_payment_gate (resync ["A1"; "A2"] one_selected)
                [alice; blank_detail] eq_refl) as (Hbad & _).
    refine (proj1 (proj2 (Hbad _))).
    exists blank_detail. split; [|by left]. right. left.
Defined.

(** C4, as the claim states it, fails: an index past the end is not
    rejected; the roster grows to reach it. *)
Lemma C4_counterexample :
  handlePassengerDetailChange 2 "name" "Carol" one_selected
  = mkState ["A1"] [Obj alice; Hole; Obj {["name" := "Carol"]}] "passengers" false
  ∧ passengerDetails (handlePassengerDetailChange 2 "name" "Carol" one_selected)
    ≠ passengerDetails one_selected.
Proof. split; [done|]. intros Heq. by apply (f_equal length) in Heq. Qed.

(** C4, amended: the update never fails.  For an index within the roster it
    keeps the roster's length, sets the named field of the entry at that
    index and leaves every other entry as it was.  The handler has no bounds
    check: for an index at or past the end the roster is not left unchanged
    but grows to [index + 1] slots, the new last one holding only the named
    field and the slots in between left empty. *)
Theorem C4_update_by_index (index : nat) (field value : string) (st : state) :
  let st' := handlePassengerDetailChange index field value st in
  (index < length (passengerDetails st) →
     length (passengerDetails st') = length (passengerDetails st)
     ∧ js_get (passengerDetails st') index
       = Some (<[field := value]> (default ∅ (js_get (passengerDetails st) index)))
     ∧ ∀ j, j ≠ index →
         js_get (passengerDetails st') j = js_get (passengerDetails st) j)
  ∧ (length (passengerDetails st) ≤ index →
     length (passengerDetails st') = S index
     ∧ js_get (passengerDetails st') index = Some {[field := value]}
     ∧ (∀ j, length (passengerDetails st) ≤ j → j < index →
          passengerDetails st' !! j = Some Hole)
     ∧ passengerDetails st' ≠ passengerDetails st).
Proof.
  intros st'. subst st'. split.
  - intros Hin. split; [|split].
    + rewrite handlePassengerDetailChange_length. lia.
    + apply handlePassengerDetailChange_at.
    + intros j Hj. by apply handlePassengerDetailChange_other.
  - intros Hout.
    assert (length (passengerDetails (handlePassengerDetailChange index field value st))
            = S index) as Hlen.
    { rewrite handlePassengerDetailChange_length. lia. }
    split; [done|]. split; [|split].
    + rewrite handlePassengerDetailChange_at, js_get_ge by done.
      simpl. by rewrite insert_empty.
    + intros j Hj Hji. simpl. apply js_set_lookup_gap; [|done].
      by rewrite length_js_spread.
    + intros Heq. rewrite Heq in Hlen. lia.
Qed.

Lemma C4_update_by_index_witness :
  length (passengerDetails (handlePassengerDetailChange 0 "age" "31" one_selected)) = 1
  ∧ length (passengerDetails (handlePassengerDetailChange 2 "name" "Carol" one_selected)) = 3.
Proof.
  split.
  - destruct (C4_update_by_index 0 "age" "31" one_selected) as [Hin _].
    refine (proj1 (Hin _)). simpl. lia.
  - destruct (C4_update_by_index 2 "name" "Carol" one_selected) as [_ Hout].
    refine (proj1 (Hout _)). simpl. lia.
Defined.

(** C5: starting from the empty selection, no sequence of seat clicks
    selects more than 6 seats; and a click on a free seat that is not
    selected, while 6 seats are, changes nothing and raises the
    "Maximum 6 seats can be selected" toast. *)
Theorem C5_capacity :
  (∀ clicks, length (selectedSeats (toggles clicks initial_state)) ≤ 6)
  ∧ (∀ seat st,
       is_booked seat = false →
       seat_number seat ∉ selectedSeats st →
       length (selectedSeats st) = 6 →
       handleSeatClick seat st = (st, [Toast max_seats_toast])).
Proof.
  split.
  - intros clicks.
    apply (toggles_invariant (λ st, length (selectedSeats st) ≤ 6)).
    + intros seat st. apply handleSeatClick_capacity.
    + simpl. lia.
  - intros seat st Hb Hnew Hfull. apply handleSeatClick_full; [done|done|lia].
Qed.

Lemma C5_capacity_witness :
  selectedSeats (toggles six_seats initial_state) = ["B1"; "B2"; "B3"; "B4"; "B5"; "B6"]
  ∧ handleSeatClick seat_A1 (toggles six_seats initial_state)
    = (toggles six_seats initial_state, [Toast max_seats_toast]).
Proof.
  split; [reflexivity|].
  apply (proj2 C5_capacity seat_A1 (toggles six_seats initial_state)).
  - reflexivity.
  - vm_compute. intros Hin. repeat (apply elem_of_cons in Hin as [Hin|Hin]; [discriminate|]).
    by apply elem_of_nil in Hin.
  - reflexivity.
Defined.

(** C6: after every sequence of seat clicks from the empty wizard state
    (hence after every click of the sequence) the roster has as many
    entries as there are selected seats. *)
Theorem C6_roster_length_follows_selection (clicks : list Seat) :
  length (passengerDetails (toggles clicks initial_state))
  = length (selectedSeats (toggles clicks initial_state)).
Proof.
  apply (toggles_invariant
           (λ st, length (passengerDetails st) = length (selectedSeats st))).
  - intros seat st. apply handleSeatClick_aligned.
  - done.
Qed.

(** C7, as the claim states it, fails: a click on a booked seat raises no
    warning at all. *)
Lemma C7_counterexample :
  is_booked seat_A3 = true
  ∧ (handleSeatClick seat_A3 two_selected).2 = []
  ∧ ¬ ∃ t, t ∈ toasts (handleSeatClick seat_A3 two_selected).2.
Proof.
  repeat split. intros [t Ht]. by apply elem_of_nil in Ht.
Qed.

(** C7, amended: a click on a booked seat, whatever is selected, leaves the
    selection, the roster and the rest of the state as they were, and does
    so silently: no toast is raised. *)
Theorem C7_booked_seat_is_ignored (seat : Seat) (st : state)
    (Hbooked : is_booked seat = true) :
  handleSeatClick seat st = (st, []).
Proof. by apply handleSeatClick_booked. Qed.

Lemma C7_booked_seat_is_ignored_witness :
  handleSeatClick seat_A3 two_selected = (two_selected, []).
Proof. apply (C7_booked_seat_is_ignored seat_A3 two_selected). reflexivity. Defined.

(** C8: when the booking request is rejected, the selected seats and the
    roster (and the current step) are what they were before the submit, and
    the failure only raises the "Booking failed" toast. *)
Theorem C8_rejected_booking_keeps_entries (p : props) (st : state)
    (detail : option string) :
  let submitted := (handleBooking p st).1 in
  let failed := handleBooking_settled (Rejected detail) submitted in
  selectedSeats failed.1 = selectedSeats st
  ∧ passengerDetails failed.1 = passengerDetails st
  ∧ currentStep failed.1 = currentStep st
  ∧ isLoading failed.1 = false
  ∧ failed.2 = [Toast (failed_toast detail)].
Proof. unfold handleBooking. by destruct (user p). Qed.

(** C9, as the claim states it, fails: toggling the selected seat A1 twice
    turns the selection [A1, A2] into [A2, A1]. *)
Lemma C9_counterexample :
  is_booked seat_A1 = false
  ∧ selectedSeats two_selected = ["A1"; "A2"]
  ∧ selectedSeats (toggles [seat_A1; seat_A1] two_selected) = ["A2"; "A1"]
  ∧ selectedSeats (toggles [seat_A1; seat_A1] two_selected)
    ≠ selectedSeats two_selected.
Proof. repeat split; by vm_compute. Qed.

(** C9, amended: in a state whose roster holds one entered detail per
    selected seat, toggling a free seat twice gives back the very same
    state, selection and roster, when the seat was not selected.  When it
    was selected (among at most 6), the selection ends as the prior one with
    that seat moved to the end: the same seats, and the same sequence when
    the seat was already the last. *)
Theorem C9_double_toggle (seat : Seat) (st : state)
    (ds : list (gmap string string))
    (Hfree : is_booked seat = false)
    (Hdense : dense (passengerDetails st) ds)
    (Haligned : length ds = length (selectedSeats st)) :
  (seat_number seat ∉ selectedSeats st → toggles [seat; seat] st = st)
  ∧ (seat_number seat ∈ selectedSeats st →
     length (selectedSeats st) ≤ 6 →
     selectedSeats (toggles [seat; seat] st)
     = filter (λ s, s ≠ seat_number seat) (selectedSeats st) ++ [seat_number seat]
     ∧ (∀ s, s ∈ selectedSeats (toggles [seat; seat] st) ↔ s ∈ selectedSeats st)
     ∧ (∀ l, selectedSeats st = l ++ [seat_number seat] →
             seat_number seat ∉ l →
             selectedSeats (toggles [seat; seat] st) = selectedSeats st)).
Proof.
  split.
  - intros Hnew. simpl.
    destruct (decide (6 ≤ length (selectedSeats st))) as [Hfull|Hroom].
    { rewrite (handleSeatClick_full seat st) by done. simpl fst.
      by rewrite (handleSeatClick_full seat st). }
    rewrite (handleSeatClick_select seat st) by (done || lia). simpl fst.
    rewrite handleSeatClick_deselect;
      [|done|rewrite resync_selectedSeats; set_solver].
    rewrite resync_selectedSeats, filter_app, filter_ne_absent, filter_ne_self,
      app_nil_r by done.
    simpl fst.
    pose proof (resync_dense (selectedSeats st ++ [seat_number seat]) st ds Hdense) as Hd1.
    replace (length (selectedSeats st ++ [seat_number seat])) with (S (length ds))
      in Hd1 by (rewrite length_app; simpl; lia).
    rewrite positional_grow in Hd1.
    pose proof (resync_dense (selectedSeats st) _ _ Hd1) as Hd2.
    rewrite <- Haligned, positional_shrink, firstn_all in Hd2 by done.
    etrans; [apply state_eta|]. etrans; [|symmetry; apply state_eta].
    f_equal. unfold dense in *. by rewrite Hd2, Hdense.
  - intros Hsel Hcap.
    assert (selectedSeats (toggles [seat; seat] st)
            = filter (λ s, s ≠ seat_number seat) (selectedSeats st)
              ++ [seat_number seat]) as Hres.
    { simpl. rewrite (handleSeatClick_deselect seat st) by done. simpl fst.
      rewrite handleSeatClick_select; [done|done| |].
      - rewrite resync_selectedSeats. intros Hin.
        apply list_elem_of_filter in Hin as [Hne _]. by apply Hne.
      - rewrite resync_selectedSeats.
        assert (length (filter (λ s, s ≠ seat_number seat) (selectedSeats st))
                < length (selectedSeats st)); [|lia].
        apply (length_filter_lt _ _ (seat_number seat)); [done|].
        intros H. by apply H. }
    split; [done|]. split.
    + intros s. rewrite Hres, elem_of_app, list_elem_of_filter, list_elem_of_singleton.
      split.
      * intros [[_ Hin]| ->]; done.
      * intros Hin. destruct (decide (s = seat_number seat)); [by right|by left].
    + intros l Hl Hnl. rewrite Hres, Hl.
      by rewrite filter_app, filter_ne_absent, filter_ne_self, app_nil_r.
Qed.

Lemma C9_double_toggle_witness :
  toggles [seat_A2; seat_A2] one_selected = one_selected
  ∧ selectedSeats (toggles [seat_A2; seat_A2] two_selected) = ["A1"; "A2"].
Proof.
  split.
  - refine (proj1 (C9_double_toggle seat_A2 one_selected [alice] eq_refl eq_refl eq_refl) _).
    simpl. intros Hin. apply elem_of_cons in Hin as [Hin|Hin]; [discriminate|].
    by apply elem_of_nil in Hin.
  - refine (proj2 (proj2 (proj2 (C9_double_toggle seat_A2 two_selected [alice; bob]
                                   eq_refl eq_refl eq_refl) _ _)) ["A1"] eq_refl _).
    + simpl. right. left.
    + simpl. lia.
    + simpl. intros Hin. apply elem_of_cons in Hin as [Hin|Hin]; [discriminate|].
      by apply elem_of_nil in Hin.
Defined.

(** C10: an update at an index within the roster changes the named field of
    the entry at that index and nothing else: the selected seats, the
    current step and the loading flag, the roster's length, every other
    entry, and the other fields of the updated entry are as before. *)
Theorem C10_update_changes_one_field (index : nat) (field value : string)
    (st : state) (Hin : index < length (passengerDetails st)) :
  let st' := handlePassengerDetailChange index field value st in
  selectedSeats st' = selectedSeats st
  ∧ currentStep st' = currentStep st
  ∧ isLoading st' = isLoading st
  ∧ length (passengerDetails st') = length (passengerDetails st)
  ∧ (∀ j, j ≠ index →
       js_get (passengerDetails st') j = js_get (passengerDetails st) j)
  ∧ (∃ d', js_get (passengerDetails st') index = Some d'
           ∧ d' !! field = Some value
           ∧ ∀ k, k ≠ field →
               d' !! k = default ∅ (js_get (passengerDetails st) index) !! k)
  ∧ (∀ ds d, dense (passengerDetails st) ds → ds !! index = Some d →
       passengerDetails st' = Obj <$> <[index := <[field := value]> d]> ds).
Proof.
  intros st'. subst st'.
  split; [done|]. split; [done|]. split; [done|]. split; [|split; [|split]].
  - rewrite handlePassengerDetailChange_length. lia.
  - intros j Hj. by apply handlePassengerDetailChange_other.
  - eexists. split; [apply handlePassengerDetailChange_at|].
    split; [apply lookup_insert_eq|].
    intros k Hk. by apply lookup_insert_ne.
  - intros ds d Hd Hi. by apply handlePassengerDetailChange_dense.
Qed.

Lemma C10_update_changes_one_field_witness :
  passengerDetails (handlePassengerDetailChange 1 "age" "42" two_selected)
  = Obj <$> <[1 := <["age" := "42"]> bob]> [alice; bob].
Proof.
  refine (proj2 (proj2 (proj2 (proj2 (proj2 (proj2
    (C10_update_changes_one_field 1 "age" "42" two_selected _))))))
    [alice; bob] bob eq_refl eq_refl).
  simpl. lia.
Defined.

(** * Further properties of the seat selection component *)

Section page.
Implicit Types (st : state) (w : world) (p : props) (seat : Seat).
Implicit Types (ds : list (gmap string string)).

Lemma posts_app effs1 effs2 : posts (effs1 ++ effs2) = posts effs1 ++ posts effs2.
Proof. apply omap_app. Qed.

Lemma completions_app effs1 effs2 :
  completions (effs1 ++ effs2) = completions effs1 ++ completions effs2.
Proof. apply omap_app. Qed.

Lemma js_some_dense_complete ds :
  js_some missing_name_or_age (Obj <$> ds) = Some false → complete_roster ds.
Proof.
  induction ds as [|d ds IH]; intros Hsome d' Hin; [by apply elem_of_nil in Hin|].
  rewrite fmap_cons in Hsome. cbn [js_some] in Hsome.
  destruct (missing_name_or_age (Obj d)) as [[]|] eqn:Hd; [done| |done].
  apply elem_of_cons in Hin as [->|Hin]; [|by apply IH].
  simpl in Hd. simplify_eq. apply orb_false_iff in Hd as [Hn Ha].
  apply negb_false_iff in Hn, Ha.
  split; intros Hs; apply truthy_shown in Hs; congruence.
Qed.

Lemma handleSeatClick_selected seat st s :
  s ∈ selectedSeats (handleSeatClick seat st).1 →
  s ∈ selectedSeats st ∨ (s = seat_number seat ∧ is_booked seat = false).
Proof.
  unfold handleSeatClick. destruct (is_booked seat) eqn:Hb; [by left|].
  case_bool_decide; simpl.
  - intros [_ Hin]%list_elem_of_filter. by left.
  - case_decide; [by left|]. simpl.
    intros [Hin| ->%list_elem_of_singleton]%elem_of_app; [by left|by right].
Qed.

Lemma page_inv_same p w w' :
  selectedSeats (comp w') = selectedSeats (comp w) →
  passengerDetails (comp w') = passengerDetails (comp w) →
  currentStep (comp w') = currentStep (comp w) →
  posts (emitted w') = posts (emitted w) →
  page_inv p w → page_inv p w'.
Proof.
  unfold page_inv, continue_disabled. intros Hs Hp Hc He (Hwf & Hfree & Hstep & Hreq).
  rewrite Hs, Hp, Hc, He. split; [|done].
  by apply (well_formed_same (comp w)).
Qed.

Lemma page_inv_step_to p w value :
  page_inv p w →
  (value = "seats"
   ∨ (value = "passengers" ∧ selectedSeats (comp w) ≠ [])
   ∨ (value = "payment" ∧ selectedSeats (comp w) ≠ []
      ∧ continue_disabled (comp w) = Some false)) →
  page_inv p (mkWorld (setCurrentStep value (comp w)) (in_flight w) (emitted w)).
Proof.
  unfold page_inv. simpl. intros (Hwf & Hfree & _ & Hreq) Hto.
  split; [by apply (well_formed_same (comp w))|done].
Qed.

Lemma dispatch_pure (f : state → state) w :
  dispatch (λ st, (f st, [])) w = mkWorld (f (comp w)) (in_flight w) (emitted w).
Proof. unfold dispatch. simpl. by rewrite !app_nil_r. Qed.

Lemma page_step_inv p w e : page_inv p w → page_inv p (page_step p w e).
Proof.
  intros Hinv. unfold page_step. destruct (rendered p (comp w) e) eqn:Hr; [|done].
  pose proof Hinv as (Hwf & Hfree & Hstep & Hreq).
  destruct e as [seat|index field value| | |value| |i r];
    cbn [ui_step]; cbn [rendered] in Hr.
  - apply andb_true_iff in Hr as [Hs%bool_decide_eq_true Hm%bool_decide_eq_true].
    destruct (is_booked seat) eqn:Hb; [done|].
    unfold page_inv, dispatch. simpl.
    rewrite posts_app, handleSeatClick_posts, app_nil_r, handleSeatClick_currentStep.
    split; [by apply handleSeatClick_well_formed|]. split; [|by split; [left|]].
    intros s [Hin|[-> _]]%handleSeatClick_selected; [by apply Hfree|].
    by exists seat.
  - apply andb_true_iff in Hr as [Hs%bool_decide_eq_true _].
    case_decide as Hi; [|done].
    rewrite dispatch_pure. unfold page_inv. simpl.
    split; [by apply handlePassengerDetailChange_well_formed|].
    split; [done|]. split; [|done].
    right. left. split; [done|]. intros Hnil. rewrite Hnil in Hi. simpl in Hi. lia.
  - apply bool_decide_eq_true in Hr.
    rewrite dispatch_pure. unfold clickContinueToPassengers. case_decide as Hlen.
    + apply (page_inv_step_to p w "passengers" Hinv). right. left. split; [done|].
      intros Hnil. rewrite Hnil in Hlen. simpl in Hlen. lia.
    + by rewrite <- world_eta.
  - apply bool_decide_eq_true in Hr.
    rewrite dispatch_pure. unfold clickContinueToPayment.
    destruct (continue_disabled (comp w)) as [[]|] eqn:Hcd;
      [by rewrite <- world_eta| |by rewrite <- world_eta].
    apply (page_inv_step_to p w "payment" Hinv). right. right.
    destruct Hstep as [Hs|[[_ Hne]|[_ [Hne _]]]]; [congruence|done|done].
  - rewrite dispatch_pure. unfold clickTab.
    destruct (tab_disabled value (comp w)) as [[]|] eqn:Htd;
      [by rewrite <- world_eta| |by rewrite <- world_eta].
    apply (page_inv_step_to p w value Hinv). unfold tab_disabled in Htd.
    case_decide as H1; [by left|].
    case_decide as H2.
    { right. left. split; [done|]. injection Htd as Htd.
      apply bool_decide_eq_false in Htd. intros Hnil. apply Htd. by rewrite Hnil. }
    case_decide as H3; [|done].
    case_decide as H4; [done|].
    right. right. split; [done|]. split; [|done].
    intros Hnil. apply H4. by rewrite Hnil.
  - apply bool_decide_eq_true in Hr.
    unfold clickPay, dispatch. destruct (isLoading (comp w)) eqn:Hl.
    { simpl. by rewrite !app_nil_r, <- world_eta. }
    unfold handleBooking. destruct (user p) as [u|].
    + unfold page_inv. simpl.
      split; [by apply (well_formed_same (comp w))|]. split; [done|]. split; [done|].
      rewrite posts_app. simpl.
      intros r0 [Hin| ->%list_elem_of_singleton]%elem_of_app; [by apply Hreq|].
      destruct Hstep as [Hs|[[Hs _]|(_ & Hne & Hcd)]]; [congruence|congruence|].
      destruct Hwf as (ds & Hd & Hal & Hcap & Hnd).
      repeat (split; [done|]). simpl. exists ds. split; [done|]. split; [done|].
      apply js_some_dense_complete. unfold continue_disabled in Hcd. by rewrite <- Hd.
    + apply (page_inv_same p w); try done. simpl. by rewrite posts_app, app_nil_r.
  - destruct (in_flight w !! i); [|done].
    apply (page_inv_same p w); try done; simpl; try by destruct r.
    rewrite posts_app. destruct r; simpl; by rewrite app_nil_r.
Qed.

Lemma page_run_inv p evs w : page_inv p w → page_inv p (page_run p evs w).
Proof.
  revert w. induction evs as [|e evs IH]; intros w Hinv; [done|].
  simpl. apply IH. by apply page_step_inv.
Qed.

Lemma initial_page_inv p : page_inv p initial_world.
Proof.
  split; [|split; [|split]].
  - exists []. repeat split; simpl; [lia|apply NoDup_nil_2].
  - intros s Hs. by apply elem_of_nil in Hs.
  - by left.
  - intros r Hr. by apply elem_of_nil in Hr.
Qed.

End page.

Lemma shape_inv_same (w w' : world) :
  selectedSeats (comp w') = selectedSeats (comp w) →
  passengerDetails (comp w') = passengerDetails (comp w) →
  currentStep (comp w') = currentStep (comp w) →
  posts (emitted w') = posts (emitted w) →
  shape_inv w → shape_inv w'.
Proof.
  unfold shape_inv, continue_disabled. intros Hs Hp Hc He (Hwf & Hstep & Hreq).
  rewrite Hs, Hp, Hc, He. split; [|done].
  by apply (well_formed_same (comp w)).
Qed.

Lemma shape_inv_step_to (w : world) (value : string) :
  shape_inv w →
  (value = "seats"
   ∨ (value = "passengers" ∧ selectedSeats (comp w) ≠ [])
   ∨ (value = "payment" ∧ selectedSeats (comp w) ≠ []
      ∧ continue_disabled (comp w) = Some false)) →
  shape_inv (mkWorld (setCurrentStep value (comp w)) (in_flight w) (emitted w)).
Proof.
  unfold shape_inv. simpl. intros (Hwf & _ & Hreq) Hto.
  split; [by apply (well_formed_same (comp w))|done].
Qed.

(** The props only decide which seat buttons exist and what a request is
    addressed to; the shape of the page's state does not depend on them. *)
Lemma page_step_shape (p : props) (w : world) (e : ui_event) :
  shape_inv w → shape_inv (page_step p w e).
Proof.
  intros Hinv. unfold page_step. destruct (rendered p (comp w) e) eqn:Hr; [|done].
  pose proof Hinv as (Hwf & Hstep & Hreq).
  destruct e as [seat|index field value| | |value| |i r];
    cbn [ui_step]; cbn [rendered] in Hr.
  - apply andb_true_iff in Hr as [Hs%bool_decide_eq_true _].
    destruct (is_booked seat) eqn:Hb; [done|].
    unfold shape_inv, dispatch. simpl.
    rewrite posts_app, handleSeatClick_posts, app_nil_r, handleSeatClick_currentStep.
    split; [by apply handleSeatClick_well_formed|]. by split; [left|].
  - apply andb_true_iff in Hr as [Hs%bool_decide_eq_true _].
    case_decide as Hi; [|done].
    rewrite dispatch_pure. unfold shape_inv. simpl.
    split; [by apply handlePassengerDetailChange_well_formed|]. split; [|done].
    right. left. split; [done|]. intros Hnil. rewrite Hnil in Hi. simpl in Hi. lia.
  - apply bool_decide_eq_true in Hr.
    rewrite dispatch_pure. unfold clickContinueToPassengers. case_decide as Hlen.
    + apply (shape_inv_step_to w "passengers" Hinv). right. left. split; [done|].
      intros Hnil. rewrite Hnil in Hlen. simpl in Hlen. lia.
    + by rewrite <- world_eta.
  - apply bool_decide_eq_true in Hr.
    rewrite dispatch_pure. unfold clickContinueToPayment.
    destruct (continue_disabled (comp w)) as [[]|] eqn:Hcd;
      [by rewrite <- world_eta| |by rewrite <- world_eta].
    apply (shape_inv_step_to w "payment" Hinv). right. right.
    destruct Hstep as [Hs|[[_ Hne]|[_ [Hne _]]]]; [congruence|done|done].
  - rewrite dispatch_pure. unfold clickTab.
    destruct (tab_disabled value (comp w)) as [[]|] eqn:Htd;
      [by rewrite <- world_eta| |by rewrite <- world_eta].
    apply (shape_inv_step_to w value Hinv). unfold tab_disabled in Htd.
    case_decide as H1; [by left|].
    case_decide as H2.
    { right. left. split; [done|]. injection Htd as Htd.
      apply bool_decide_eq_false in Htd. intros Hnil. apply Htd. by rewrite Hnil. }
    case_decide as H3; [|done].
    case_decide as H4; [done|].
    right. right. split; [done|]. split; [|done].
    intros Hnil. apply H4. by rewrite Hnil.
  - apply bool_decide_eq_true in Hr.
    unfold clickPay, dispatch. destruct (isLoading (comp w)) eqn:Hl.
    { simpl. by rewrite !app_nil_r, <- world_eta. }
    unfold handleBooking. destruct (user p) as [u|].
    + unfold shape_inv. simpl.
      split; [by apply (well_formed_same (comp w))|]. split; [done|].
      rewrite posts_app. simpl.
      intros r0 [Hin| ->%list_elem_of_singleton]%elem_of_app; [by apply Hreq|].
      destruct Hstep as [Hs|[[Hs _]|(_ & Hne & Hcd)]]; [congruence|congruence|].
      destruct Hwf as (ds & Hd & Hal & Hcap & Hnd).
      repeat (split; [done|]). simpl. exists ds. split; [done|]. split; [done|].
      apply js_some_dense_complete. unfold continue_disabled in Hcd. by rewrite <- Hd.
    + apply (shape_inv_same w); try done. simpl. by rewrite posts_app, app_nil_r.
  - destruct (in_flight w !! i); [|done].
    apply (shape_inv_same w); try done; simpl; try by destruct r.
    rewrite posts_app. destruct r; simpl; by rewrite app_nil_r.
Qed.

Lemma session_run_shape (evs : list page_event) (s : props * world) :
  shape_inv s.2 → shape_inv (session_run true evs s).2.
Proof.
  revert s. induction evs as [|e evs IH]; intros s Hinv; [done|].
  simpl. apply IH. destruct e as [e|p]; simpl; [|done].
  by apply page_step_shape.
Qed.

Lemma initial_shape_inv : shape_inv initial_world.
Proof.
  split; [|split].
  - exists []. repeat split; simpl; [lia|apply NoDup_nil_2].
  - by left.
  - intros r Hr. by apply elem_of_nil in Hr.
Qed.

(** A session without a change of props is a run of the page. *)
Lemma session_run_Ui (gated : bool) (p : props) (evs : list ui_event) (w : world) :
  session_run gated (Ui <$> evs) (p, w)
  = (p, if gated then page_run p evs w else ui_run p evs w).
Proof.
  revert w. induction evs as [|e evs IH]; intros w; [by destruct gated|].
  simpl. rewrite IH. by destruct gated.
Qed.

(** X1: on the page as shown (a control can be clicked only while the tab
    panel it lives in is the current step, a seat button exists for each
    element of [seats]), every booking request sent names between one and
    six distinct seats and carries one passenger per seat, each with a name
    and an age, even when the parent replaces the props of the mounted
    component in between.  When the props are never replaced, the request
    moreover carries the schedule id of the trip and every seat in it is
    free in the seat map. *)
Theorem X1_page_sends_complete_requests :
  (∀ (p0 : props) (evs : list page_event) (r : booking_request),
     r ∈ posts (emitted (session_run true evs (p0, initial_world)).2) →
     shaped_request r)
  ∧ (∀ (p : props) (evs : list ui_event) (r : booking_request),
       r ∈ posts (emitted (session_run true (Ui <$> evs) (p, initial_world)).2) →
       complete_request p r).
Proof.
  split.
  - intros p0 evs r Hsent.
    destruct (session_run_shape evs (p0, initial_world) initial_shape_inv)
      as (_ & _ & Hreq).
    by apply Hreq.
  - intros p evs r. rewrite session_run_Ui. simpl. intros Hsent.
    destruct (page_run_inv p evs initial_world (initial_page_inv p))
      as (_ & _ & _ & Hreq).
    by apply Hreq.
Qed.

Lemma X1_page_sends_complete_requests_witness :
  shaped_request
    (mkRequest "schedule-2" ["A1"]
       [Obj (<["age" := "30"]> (<["name" := "Alice"]> blank_detail))])
  ∧ complete_request trip
      (mkRequest "schedule-1" ["A1"]
         [Obj (<["age" := "30"]> (<["name" := "Alice"]> blank_detail))]).
Proof.
  split.
  - apply (proj1 X1_page_sends_complete_requests trip
             [Ui (SeatButton seat_A1); Ui ContinueToPassengers;
              Ui (DetailInput 0 "name" "Alice"); Ui (DetailInput 0 "age" "30");
              NewProps other_trip; Ui ContinueToPayment; Ui PayButton]).
    vm_compute. left.
  - apply (proj2 X1_page_sends_complete_requests trip alice_books).
    vm_compute. left.
Defined.

(** X2: on the page as shown (same page model as X1), and even when the
    parent replaces the props of the mounted component, the selection never
    holds a seat twice and never more than 6 seats; the wizard is always on
    one of its three steps, is off the first only with a seat selected, and
    is on the payment step only with a name and an age entered for every
    passenger.  When the props are never replaced, every selected seat is a
    free seat of the seat map. *)
Theorem X2_page_invariants :
  (∀ (p0 : props) (evs : list page_event),
     let st := comp (session_run true evs (p0, initial_world)).2 in
     NoDup (selectedSeats st)
     ∧ length (selectedSeats st) ≤ 6
     ∧ currentStep st ∈ ["seats"; "passengers"; "payment"]
     ∧ (currentStep st ≠ "seats" → selectedSeats st ≠ [])
     ∧ (currentStep st = "payment" →
        ∃ ds, dense (passengerDetails st) ds
              ∧ length ds = length (selectedSeats st)
              ∧ complete_roster ds))
  ∧ (∀ (p : props) (evs : list ui_event) (s : string),
       s ∈ selectedSeats (comp (session_run true (Ui <$> evs) (p, initial_world)).2) →
       free_in_map p s).
Proof.
  split.
  - intros p0 evs st. subst st.
    destruct (session_run_shape evs (p0, initial_world) initial_shape_inv)
      as (Hwf & Hstep & _).
    destruct Hwf as (ds & Hd & Hal & Hcap & Hnd).
    split; [done|]. split; [done|]. split; [|split].
    + destruct Hstep as [->|[[-> _]|[-> _]]];
        [by left|right; by left|do 2 right; by left].
    + intros Hns. by destruct Hstep as [Hs|[[_ Hne]|[_ [Hne _]]]].
    + intros Hpay. destruct Hstep as [Hs|[[Hs _]|(_ & _ & Hcd)]]; [congruence..|].
      exists ds. split; [done|]. split; [done|].
      apply js_some_dense_complete. unfold continue_disabled in Hcd. by rewrite <- Hd.
  - intros p evs s. rewrite session_run_Ui. simpl. intros Hin.
    destruct (page_run_inv p evs initial_world (initial_page_inv p))
      as (_ & Hfree & _ & _).
    by apply Hfree.
Qed.

Lemma X2_page_invariants_witness :
  selectedSeats (comp (session_run true (Ui <$> alice_books) (trip, initial_world)).2) ≠ []
  ∧ free_in_map trip "A1".
Proof.
  split.
  - refine (proj1 (proj2 (proj2 (proj2
      (proj1 X2_page_invariants trip (Ui <$> alice_books))))) _).
    by vm_compute.
  - apply (proj2 X2_page_invariants trip [SeatButton seat_A1]).
    vm_compute. left.
Defined.

Lemma ui_step_guest (p : props) (w : world) (e : ui_event) :
  user p = None →
  in_flight w = [] ∧ posts (emitted w) = [] ∧ isLoading (comp w) = false →
  in_flight (ui_step p w e) = [] ∧ posts (emitted (ui_step p w e)) = []
  ∧ isLoading (comp (ui_step p w e)) = false.
Proof.
  intros Hguest (Hf & Hp & Hl).
  assert (∀ h : state → state * list effect,
            posts (h (comp w)).2 = [] →
            isLoading (h (comp w)).1 = false →
            in_flight (dispatch h w) = [] ∧ posts (emitted (dispatch h w)) = []
            ∧ isLoading (comp (dispatch h w)) = false) as Hsilent.
  { intros h Hhp Hhl. unfold dispatch. simpl. by rewrite posts_app, Hf, Hp, Hhp. }
  destruct e as [seat|index field value| | |value| |i r]; cbn [ui_step].
  - destruct (is_booked seat); [done|]. apply Hsilent.
    + apply handleSeatClick_posts.
    + by rewrite handleSeatClick_isLoading.
  - case_decide; [|done]. by apply Hsilent.
  - apply Hsilent; [done|]. cbn [fst]. by rewrite clickContinueToPassengers_isLoading.
  - apply Hsilent; [done|]. cbn [fst]. by rewrite clickContinueToPayment_isLoading.
  - apply Hsilent; [done|]. cbn [fst]. by rewrite clickTab_isLoading.
  - apply Hsilent; unfold clickPay, handleBooking; rewrite Hl, Hguest; done.
  - by rewrite Hf.
Qed.

Lemma session_run_guest (evs : list page_event) (s : props * world) :
  user s.1 = None →
  (∀ p, NewProps p ∈ evs → user p = None) →
  in_flight s.2 = [] ∧ posts (emitted s.2) = [] ∧ isLoading (comp s.2) = false →
  in_flight (session_run false evs s).2 = []
  ∧ posts (emitted (session_run false evs s).2) = []
  ∧ isLoading (comp (session_run false evs s).2) = false.
Proof.
  revert s. induction evs as [|e evs IH]; intros s Hu Hall Hs; [done|].
  simpl. apply IH.
  - destruct e as [e|p]; simpl; [done|]. apply Hall. by left.
  - intros p Hp. apply Hall. by right.
  - destruct e as [e|p]; simpl; [|done]. by apply ui_step_guest.
Qed.

(** X3: a click on the pay button at a moment when no user is logged in
    posts nothing and puts nothing in flight, whatever the state.  Hence in
    a session in which no user is logged in at any time from the mount on,
    however the other props change and whichever handlers are called, no
    booking request is ever posted or in flight and [isLoading] stays
    false.  (A request posted before a logout is not covered: it stays in
    flight.) *)
Theorem X3_guest_never_posts :
  (∀ (p : props) (w : world),
     user p = None →
     in_flight (ui_step p w PayButton) = in_flight w
     ∧ posts (emitted (ui_step p w PayButton)) = posts (emitted w)
     ∧ comp (ui_step p w PayButton) = comp w)
  ∧ (∀ (p0 : props) (evs : list page_event),
       user p0 = None →
       (∀ p, NewProps p ∈ evs → user p = None) →
       let w := (session_run false evs (p0, initial_world)).2 in
       in_flight w = [] ∧ posts (emitted w) = [] ∧ isLoading (comp w) = false).
Proof.
  split.
  - intros p w Hguest. cbn [ui_step]. unfold dispatch, clickPay, handleBooking.
    rewrite Hguest. destruct (isLoading (comp w)); simpl;
      by rewrite posts_app, !app_nil_r.
  - intros p0 evs Hguest Hall w. subst w.
    by apply session_run_guest.
Qed.

Lemma X3_guest_never_posts_witness :
  posts (emitted (session_run false
                    ((Ui <$> alice_books) ++ [NewProps guest_trip; Ui PayButton])
                    (guest_trip, initial_world)).2) = []
  ∧ in_flight (ui_step guest_trip (mkWorld two_selected [] []) PayButton) = [].
Proof.
  split.
  - refine (proj1 (proj2 (proj2 X3_guest_never_posts guest_trip _ eq_refl _))).
    intros p Hp. vm_compute in Hp.
    repeat (apply elem_of_cons in Hp as [Hp|Hp]; [by simplify_eq|]).
    by apply elem_of_nil in Hp.
  - exact (proj1 (proj1 X3_guest_never_posts guest_trip
                    (mkWorld two_selected [] []) eq_refl)).
Defined.

Lemma length_filter_ne_NoDup (s : string) (l : list string) :
  NoDup l → s ∈ l → S (length (filter (λ x, x ≠ s) l)) = length l.
Proof.
  induction l as [|x l IH]; intros Hnd Hin; [by apply elem_of_nil in Hin|].
  apply NoDup_cons in Hnd as [Hx Hnd].
  destruct (decide (x = s)) as [->|Hne].
  - rewrite filter_cons_False by (intros H; by apply H).
    by rewrite filter_ne_absent.
  - rewrite filter_cons_True by done. simpl. f_equal. apply IH; [done|].
    apply elem_of_cons in Hin as [->|Hin]; done.
Qed.

(** X4: the seat count the page shows ([selectedSeats.length], in the
    first tab's label and in the booking summary) follows the selection.
    With no seat selected twice, a click on a free seat lowers the count by
    exactly one when the seat was selected, raises it by exactly one when it
    was not and fewer than 6 seats are selected, and leaves it alone when 6
    seats are selected. *)
Theorem X4_count_follows_selection (seat : Seat) (st : state)
    (Hfree : is_booked seat = false)
    (Hnd : NoDup (selectedSeats st)) :
  let st' := (handleSeatClick seat st).1 in
  (seat_number seat ∈ selectedSeats st →
     S (length (selectedSeats st')) = length (selectedSeats st))
  ∧ (seat_number seat ∉ selectedSeats st → length (selectedSeats st) < 6 →
     length (selectedSeats st') = S (length (selectedSeats st)))
  ∧ (seat_number seat ∉ selectedSeats st → 6 ≤ length (selectedSeats st) →
     length (selectedSeats st') = length (selectedSeats st)).
Proof.
  intros st'. subst st'. split; [|split].
  - intros Hin. rewrite handleSeatClick_deselect by done. simpl fst.
    rewrite resync_selectedSeats. by apply length_filter_ne_NoDup.
  - intros Hnew Hroom. rewrite handleSeatClick_select by done. simpl fst.
    rewrite resync_selectedSeats, length_app. simpl. lia.
  - intros Hnew Hfull. by rewrite handleSeatClick_full.
Qed.

Lemma X4_count_follows_selection_witness :
  S (length (selectedSeats (handleSeatClick seat_A1 two_selected).1)) = 2
  ∧ length (selectedSeats (handleSeatClick seat_A2 one_selected).1) = 2.
Proof.
  split.
  - refine (proj1 (X4_count_follows_selection seat_A1 two_selected eq_refl _) _);
      compute_done.
  - refine (proj1 (proj2 (X4_count_follows_selection seat_A2 one_selected eq_refl _)) _ _);
      compute_done.
Defined.

(** X5: a click on a free seat turns its button from selected to available,
    or from available to selected when fewer than 6 seats are selected; when
    6 seats are selected a click on an unselected seat changes nothing and
    its button stays available; and a click never changes the colour of the
    button of a seat with another number. *)
Theorem X5_click_recolours_one_seat (seat other : Seat) (st : state)
    (Hfree : is_booked seat = false) :
  let st' := (handleSeatClick seat st).1 in
  (seat_number seat ∈ selectedSeats st →
     getSeatColor seat st = "bg-green-500 text-white"
     ∧ getSeatColor seat st' = "bg-gray-200 hover:bg-gray-300 cursor-pointer")
  ∧ (seat_number seat ∉ selectedSeats st → length (selectedSeats st) < 6 →
     getSeatColor seat st = "bg-gray-200 hover:bg-gray-300 cursor-pointer"
     ∧ getSeatColor seat st' = "bg-green-500 text-white")
  ∧ (seat_number seat ∉ selectedSeats st → 6 ≤ length (selectedSeats st) →
     st' = st
     ∧ getSeatColor seat st' = "bg-gray-200 hover:bg-gray-300 cursor-pointer")
  ∧ (seat_number other ≠ seat_number seat →
     getSeatColor other st' = getSeatColor other st).
Proof.
  intros st'. subst st'. unfold getSeatColor. rewrite Hfree.
  split; [|split; [|split]].
  - intros Hin. rewrite handleSeatClick_deselect by done. simpl fst.
    rewrite resync_selectedSeats, bool_decide_eq_true_2 by done.
    split; [done|]. rewrite bool_decide_eq_false_2; [done|].
    intros [Hne _]%list_elem_of_filter. by apply Hne.
  - intros Hnew Hroom. rewrite handleSeatClick_select by done. simpl fst.
    rewrite resync_selectedSeats, bool_decide_eq_false_2 by done.
    split; [done|]. rewrite bool_decide_eq_true_2; [done|].
    apply elem_of_app. right. by apply list_elem_of_singleton.
  - intros Hnew Hfull. rewrite handleSeatClick_full by done. simpl fst.
    split; [done|]. by rewrite bool_decide_eq_false_2.
  - intros Hother. destruct (is_booked other); [done|].
    rewrite (bool_decide_ext _ (seat_number other ∈ selectedSeats st)); [done|].
    unfold handleSeatClick. rewrite Hfree.
    case_bool_decide; simpl.
    + rewrite list_elem_of_filter. split; [by intros [_ Hin]|by split].
    + case_decide; [done|]. simpl.
      rewrite elem_of_app, list_elem_of_singleton.
      split; [by intros [Hin|Heq]|by left].
Qed.

Lemma X5_click_recolours_one_seat_witness :
  getSeatColor seat_A1 (handleSeatClick seat_A1 two_selected).1
  = "bg-gray-200 hover:bg-gray-300 cursor-pointer"
  ∧ (handleSeatClick seat_A1 (toggles six_seats initial_state)).1
    = toggles six_seats initial_state.
Proof.
  split.
  - refine (proj2 (proj1 (X5_click_recolours_one_seat seat_A1 seat_A2 two_selected
                            eq_refl) _)).
    compute_done.
  - refine (proj1 (proj1 (proj2 (proj2 (X5_click_recolours_one_seat seat_A1 seat_A2
                            (toggles six_seats initial_state) eq_refl))) _ _));
      compute_done.
Defined.

(** X6: selecting one more seat keeps every detail already entered, adds a
    blank passenger at the end, and thereby closes the way to payment until
    the new passenger has a name and an age. *)
Theorem X6_new_seat_adds_blank_passenger (seat : Seat) (st : state)
    (ds : list (gmap string string))
    (Hfree : is_booked seat = false)
    (Hnew : seat_number seat ∉ selectedSeats st)
    (Hroom : length (selectedSeats st) < 6)
    (Hdense : dense (passengerDetails st) ds)
    (Haligned : length ds = length (selectedSeats st)) :
  let st' := (handleSeatClick seat st).1 in
  selectedSeats st' = selectedSeats st ++ [seat_number seat]
  ∧ passengerDetails st' = Obj <$> (ds ++ [blank_detail])
  ∧ continue_disabled st' = Some true
  ∧ clickContinueToPayment st' = st'
  ∧ clickTab "payment" st' = st'.
Proof.
  intros st'. subst st'. rewrite handleSeatClick_select by done. simpl fst.
  pose proof (resync_dense (selectedSeats st ++ [seat_number seat]) st ds Hdense) as Hd.
  replace (length (selectedSeats st ++ [seat_number seat])) with (S (length ds))
    in Hd by (rewrite length_app; simpl; lia).
  rewrite positional_grow in Hd. unfold dense in Hd.
  assert (continue_disabled (resync (selectedSeats st ++ [seat_number seat]) st)
          = Some true) as Hcd.
  { unfold continue_disabled. rewrite Hd. apply js_some_dense_true.
    exists blank_detail. split; [|by left].
    apply elem_of_app. right. by apply list_elem_of_singleton. }
  split; [done|]. split; [done|]. split; [done|].
  unfold clickContinueToPayment, clickTab, tab_disabled. rewrite Hcd.
  split; [done|]. simpl. by case_decide.
Qed.

Lemma X6_new_seat_adds_blank_passenger_witness :
  passengerDetails (handleSeatClick seat_A2 one_selected).1
  = Obj <$> ([alice] ++ [blank_detail]).
Proof.
  refine (proj1 (proj2 (X6_new_seat_adds_blank_passenger seat_A2 one_selected [alice]
                          eq_refl _ _ eq_refl eq_refl)));
    compute_done.
Defined.

Lemma js_spread_idemp (a : list slot) : js_spread (js_spread a) = js_spread a.
Proof.
  unfold js_spread. rewrite <- list_fmap_compose.
  apply list_fmap_ext. by intros _ [| |d] _.
Qed.

Lemma js_spread_insert_obj (a : list slot) (i : nat) (d : gmap string string) :
  js_spread (<[i := Obj d]> a) = <[i := Obj d]> (js_spread a).
Proof. unfold js_spread. by rewrite list_fmap_insert. Qed.

Lemma js_get_insert_eq (a : list slot) (i : nat) (d : gmap string string) :
  i < length a → js_get (<[i := Obj d]> a) i = Some d.
Proof. intros Hi. unfold js_get. by rewrite list_lookup_insert_eq. Qed.

Lemma js_get_insert_ne (a : list slot) (i j : nat) (x : slot) :
  i ≠ j → js_get (<[i := x]> a) j = js_get a j.
Proof. intros Hne. unfold js_get. by rewrite list_lookup_insert_ne. Qed.

(** Within bounds the update is an in-place replacement on the copy. *)
Lemma handlePassengerDetailChange_in_bounds (index : nat) (field value : string)
    (st : state) :
  index < length (passengerDetails st) →
  handlePassengerDetailChange index field value st
  = setPassengerDetails
      (<[index := Obj (<[field := value]>
                         (default ∅ (js_get (passengerDetails st) index)))]>
         (js_spread (passengerDetails st))) st.
Proof.
  intros Hi. unfold handlePassengerDetailChange, js_object_with.
  rewrite js_set_lt by (by rewrite length_js_spread).
  by rewrite js_get_spread.
Qed.

(** X7: edits of entries within the roster compose as edits of a form
    should: a second value for the same field of the same entry replaces the
    first, and edits of different fields or of different entries can be made
    in either order. *)
Theorem X7_edits_compose (i j : nat) (f g v u : string) (st : state)
    (Hi : i < length (passengerDetails st))
    (Hj : j < length (passengerDetails st)) :
  handlePassengerDetailChange i f u (handlePassengerDetailChange i f v st)
  = handlePassengerDetailChange i f u st
  ∧ (i ≠ j ∨ f ≠ g →
     handlePassengerDetailChange j g u (handlePassengerDetailChange i f v st)
     = handlePassengerDetailChange i f v (handlePassengerDetailChange j g u st)).
Proof.
  assert (∀ k h x, k < length (passengerDetails st) →
            k < length (passengerDetails (handlePassengerDetailChange k h x st)))
    as Hlen.
  { intros k h x Hk. rewrite handlePassengerDetailChange_length. lia. }
  split.
  - rewrite (handlePassengerDetailChange_in_bounds i f u (handlePassengerDetailChange _ _ _ _))
      by by apply Hlen.
    rewrite !(handlePassengerDetailChange_in_bounds i _ _ st) by done.
    unfold setPassengerDetails. simpl. f_equal.
    rewrite js_spread_insert_obj, js_spread_idemp, list_insert_insert_eq.
    rewrite js_get_insert_eq by (by rewrite length_js_spread).
    simpl. by rewrite insert_insert_eq.
  - intros Hne.
    rewrite (handlePassengerDetailChange_in_bounds j g u (handlePassengerDetailChange _ _ _ _))
      by (rewrite handlePassengerDetailChange_length; lia).
    rewrite (handlePassengerDetailChange_in_bounds i f v (handlePassengerDetailChange _ _ _ _))
      by (rewrite handlePassengerDetailChange_length; lia).
    rewrite (handlePassengerDetailChange_in_bounds i f v st),
      (handlePassengerDetailChange_in_bounds j g u st) by done.
    unfold setPassengerDetails. simpl. f_equal.
    rewrite !js_spread_insert_obj, !js_spread_idemp.
    destruct (decide (i = j)) as [->|Hij].
    + destruct Hne as [Hne|Hne]; [done|].
      rewrite !list_insert_insert_eq.
      rewrite !js_get_insert_eq by (by rewrite length_js_spread).
      simpl. f_equal. f_equal. apply insert_insert_ne. congruence.
    + rewrite (js_get_insert_ne _ i j) by done.
      rewrite (js_get_insert_ne _ j i) by done.
      rewrite !js_get_spread. by apply list_insert_insert_ne.
Qed.

Lemma X7_edits_compose_witness :
  handlePassengerDetailChange 1 "age" "42"
    (handlePassengerDetailChange 0 "name" "Alicia" two_selected)
  = handlePassengerDetailChange 0 "name" "Alicia"
      (handlePassengerDetailChange 1 "age" "42" two_selected).
Proof.
  refine (proj2 (X7_edits_compose 0 1 "name" "age" "Alicia" "42" two_selected _ _) _).
  - compute_done.
  - compute_done.
  - left. lia.
Defined.

Lemma dispatch_accounts (h : state → state * list effect) (w : world) :
  completions (h (comp w)).2 = [] →
  length (completions (emitted w)) + length (in_flight w) ≤ length (posts (emitted w)) →
  length (completions (emitted (dispatch h w))) + length (in_flight (dispatch h w))
  ≤ length (posts (emitted (dispatch h w))).
Proof.
  intros Hc Hacc. unfold dispatch. simpl.
  rewrite completions_app, posts_app, Hc, !length_app. simpl. lia.
Qed.

Lemma ui_step_accounts (p : props) (w : world) (e : ui_event) :
  length (completions (emitted w)) + length (in_flight w) ≤ length (posts (emitted w)) →
  length (completions (emitted (ui_step p w e))) + length (in_flight (ui_step p w e))
  ≤ length (posts (emitted (ui_step p w e))).
Proof.
  intros Hacc. destruct e as [seat|index field value| | |value| |i r]; cbn [ui_step].
  - destruct (is_booked seat); [done|]. apply dispatch_accounts; [|done].
    unfold handleSeatClick. destruct (is_booked seat); [done|].
    case_bool_decide; [done|]. by case_decide.
  - case_decide; [|done]. by apply dispatch_accounts.
  - by apply dispatch_accounts.
  - by apply dispatch_accounts.
  - by apply dispatch_accounts.
  - apply dispatch_accounts; [|done]. unfold clickPay, handleBooking.
    destruct (isLoading (comp w)); [done|]. by destruct (user p).
  - destruct (in_flight w !! i) as [r0|] eqn:Hi; [|done].
    apply lookup_lt_Some in Hi. unfold dispatch. simpl.
    rewrite completions_app, posts_app, !length_app.
    assert (length (delete i (in_flight w ++ posts (handleBooking_settled r (comp w)).2))
            = length (in_flight w) - 1) as ->.
    { destruct r; simpl; rewrite app_nil_r, length_delete; (done || eauto using lookup_lt_is_Some_2). }
    destruct r; simpl; lia.
Qed.

(** X8: a booking is reported complete only in answer to a request: at any
    time the calls of [onBookingComplete] and the requests still in flight
    together are no more than the requests posted. *)
Theorem X8_completions_answer_requests (p : props) (evs : list ui_event) :
  let w := ui_run p evs initial_world in
  length (completions (emitted w)) + length (in_flight w)
  ≤ length (posts (emitted w)).
Proof.
  intros w. subst w.
  assert (∀ w, length (completions (emitted w)) + length (in_flight w)
               ≤ length (posts (emitted w)) →
               length (completions (emitted (ui_run p evs w)))
               + length (in_flight (ui_run p evs w))
               ≤ length (posts (emitted (ui_run p evs w)))) as Hrun.
  { induction evs as [|e evs IH]; intros w Hw; [done|].
    simpl. apply IH. by apply ui_step_accounts. }
  apply Hrun. simpl. lia.
Qed.

(** * Booking lists *)

Section lists.
Implicit Types (w : list_world) (q : list_query) (admin : bool).

Lemma fetch_query_sound (st : list_state) :
  (1 ≤ page st)%Z →
  status_filter st ∈ ["all"; "confirmed"; "cancelled"; "completed"] →
  sound_query (fetch_query st).
Proof.
  intros Hp Hf. split; [done|]. simpl. case_decide as Hall; [by left|].
  right. exists (status_filter st). split; [|done].
  apply elem_of_cons in Hf as [Hf|Hf]; done.
Qed.

Lemma fetchBookings_inv q w : sound_query q → list_inv w → list_inv (fetchBookings q w).
Proof.
  intros Hq (Hp & Hf & Hc & Hl).
  split; [done|]. split; [done|]. split; [done|]. simpl.
  intros q' [Hin|Heq%list_elem_of_singleton]%elem_of_app; [by apply Hl|].
  by simplify_eq.
Qed.

Lemma setPage_inv v w : (1 ≤ v)%Z → list_inv w → list_inv (setPage v w).
Proof.
  intros Hv Hinv. unfold setPage. case_decide; [done|].
  destruct Hinv as (Hp & Hf & Hc & Hl).
  apply fetchBookings_inv; [by apply fetch_query_sound|done].
Qed.

Lemma setFilter_inv v w :
  v ∈ ["all"; "confirmed"; "cancelled"; "completed"] →
  list_inv w → list_inv (setFilter v w).
Proof.
  intros Hv Hinv. unfold setFilter. case_decide; [done|].
  destruct Hinv as (Hp & Hf & Hc & Hl).
  apply fetchBookings_inv; [by apply fetch_query_sound|done].
Qed.

Lemma list_step_inv admin w e : list_inv w → list_inv (list_step admin w e).
Proof.
  intros Hinv. pose proof Hinv as (Hp & Hf & Hc & Hl).
  destruct e as [| |value|i|i r|k r]; simpl.
  - destruct (list_loading (lst w)); [done|].
    destruct (pagination_shown admin (lst w)); [|done]. simpl.
    case_bool_decide as H1; [done|]. simpl. apply setPage_inv; [lia|done].
  - destruct (list_loading (lst w)); [done|].
    destruct (pagination_shown admin (lst w)); [|done]. simpl.
    case_bool_decide as H1; [done|]. simpl. apply setPage_inv; [lia|done].
  - destruct (list_loading (lst w)); [done|].
    case_bool_decide as Hv; [|done]. by apply setFilter_inv.
  - destruct (list_loading (lst w)); [done|].
    destruct (bookings (lst w) !! i) as [row|]; [|done].
    destruct (cancel_shown admin row); [|done].
    split; [done|]. split; [done|]. simpl. split.
    + intros c [Hin| ->%list_elem_of_singleton]%elem_of_app; [by apply Hc|].
      by apply fetch_query_sound.
    + intros q [Hin|Hin%list_elem_of_singleton]%elem_of_app; [by apply Hl|done].
  - destruct (fetches w !! i); [|done].
    destruct r as [rows tp|detail]; simpl.
    + done.
    + split; [done|]. split; [done|]. split; [done|]. simpl.
      intros q [Hin|Hin%list_elem_of_singleton]%elem_of_app; [by apply Hl|done].
  - destruct (cancels w !! k) as [[id q]|] eqn:Hk; [|done].
    assert (sound_query q) as Hq.
    { apply (Hc (id, q)). by eapply list_elem_of_lookup_2. }
    assert (∀ c, c ∈ delete k (cancels w) → sound_query c.2) as Hc'.
    { intros c Hin. apply Hc. by eapply list_elem_of_delete_inv. }
    destruct r as [refund|detail]; simpl.
    + apply fetchBookings_inv; [done|].
      split; [done|]. split; [done|]. split; [done|]. simpl.
      intros q' [Hin|Hin%list_elem_of_singleton]%elem_of_app; [by apply Hl|done].
    + split; [done|]. split; [done|]. split; [done|]. simpl.
      intros q' [Hin|Hin%list_elem_of_singleton]%elem_of_app; [by apply Hl|done].
Qed.

Lemma list_mounted_inv : list_inv list_mounted.
Proof.
  apply fetchBookings_inv.
  - apply fetch_query_sound; [done|]. simpl. by left.
  - split; [done|]. split; [by left|]. split; intros x Hx; by apply elem_of_nil in Hx.
Qed.

Lemma list_run_inv admin evs w : list_inv w → list_inv (list_run admin evs w).
Proof.
  revert w. induction evs as [|e evs IH]; intros w Hinv; [done|].
  simpl. apply IH. by apply list_step_inv.
Qed.

End lists.

(** X9: in both booking lists the page number never drops below 1 and the
    filter is always one of the four tabs, whatever is clicked and whatever
    the server answers; and every list request ever sent asks for a page of
    at least 1, with a [status] parameter that is absent or one of
    confirmed, cancelled and completed. *)
Theorem X9_list_requests_are_sound (admin : bool) (evs : list list_event) :
  let w := list_run admin evs list_mounted in
  (1 ≤ page (lst w))%Z
  ∧ status_filter (lst w) ∈ ["all"; "confirmed"; "cancelled"; "completed"]
  ∧ (∀ q, ListGet q ∈ list_log w → sound_query q).
Proof.
  intros w. subst w.
  destruct (list_run_inv admin evs list_mounted list_mounted_inv) as (Hp & Hf & _ & Hl).
  done.
Qed.

Lemma X9_list_requests_are_sound_witness :
  sound_query (mkQuery 2 (Some "confirmed")).
Proof.
  refine (proj2 (proj2 (X9_list_requests_are_sound false
    [FetchSettled 0 (FetchOk some_rows 3); FilterTab "confirmed";
     FetchSettled 0 (FetchOk some_rows 2); NextPage])) _ _).
  vm_compute. do 2 right. left.
Defined.

(** X10: the status badge of a passenger's booking card and the one of the
    admin table have the same colour exactly for the statuses confirmed,
    cancelled and completed; and wherever the card offers to cancel a
    booking, so does the admin table. *)
Theorem X10_status_badges_agree (row : booking_row) :
  (getStatusColor (row_status row) = admin_status_color (row_status row)
   ↔ row_status row ∈ ["confirmed"; "cancelled"; "completed"])
  ∧ (cancel_shown false row = true → cancel_shown true row = true).
Proof.
  split.
  - unfold getStatusColor, admin_status_color.
    repeat case_decide; split; intros H'; try done.
    + rewrite H. by left.
    + rewrite H0. right. by left.
    + rewrite H1. do 2 right. by left.
    + repeat (apply elem_of_cons in H' as [H'|H']; [done|]).
      by apply elem_of_nil in H'.
  - unfold cancel_shown. by intros [H _]%andb_true_iff.
Qed.

Lemma X10_status_badges_agree_witness :
  getStatusColor "confirmed" = admin_status_color "confirmed".
Proof.
  refine (proj2 (proj1 (X10_status_badges_agree (mkRow "b1" "confirmed" true))) _).
  compute_done.
Defined.

(** X11: the booking id shown in a card or a table row is the end of the
    id, counted in UTF-16 code units as [slice] does: the id is some prefix
    followed by what is shown, what is shown has 8 units, or all of them
    when the id has fewer, and an id of at most 8 units is shown whole. *)
Theorem X11_short_id_is_suffix (id : list N) :
  (∃ prefix, id = prefix ++ short_id id ∧ length prefix = length id - 8)
  ∧ length (short_id id) = min 8 (length id)
  ∧ (length id ≤ 8 → short_id id = id).
Proof.
  unfold short_id, slice_last. split; [|split].
  - exists (take (length id - 8) id). split; [by rewrite take_drop|].
    rewrite length_take. lia.
  - rewrite length_drop. lia.
  - intros Hle. replace (length id - 8) with 0 by lia. by rewrite drop_0.
Qed.

Lemma X11_short_id_is_suffix_witness :
  short_id [49; 50; 51; 52; 53; 54; 55; 233]%N = [49; 50; 51; 52; 53; 54; 55; 233]%N.
Proof.
  refine (proj2 (proj2 (X11_short_id_is_suffix [49; 50; 51; 52; 53; 54; 55; 233]%N)) _).
  simpl. lia.
Defined.

(** X12: the amenity badges of a search result account for every amenity:
    at most 3 are named, they are the first ones in order, and the count on
    the extra badge, present exactly when there are more than 3, is the
    number of those left out. *)
Theorem X12_amenity_badges_account_for_all (amenities : list string) :
  let shown_badges := (amenity_badges amenities).1 in
  let extra := (amenity_badges amenities).2 in
  length shown_badges ≤ 3
  ∧ shown_badges `prefix_of` amenities
  ∧ length shown_badges + default 0 extra = length amenities
  ∧ (extra = None ↔ length amenities ≤ 3).
Proof.
  unfold amenity_badges. cbn [fst snd]. rewrite length_take.
  split; [lia|]. split; [apply prefix_take|].
  case_decide as Hmore.
  - rewrite Nat.min_l by lia. cbn [default from_option id].
    split; [lia|]. split; [done|lia].
  - rewrite Nat.min_r by lia. cbn [default from_option id].
    split; [lia|]. split; [lia|done].
Qed.

(** * Authentication *)

Section authentication.
Implicit Types (w : auth_world) (st : auth_state) (e : auth_event).

Lemma after_render_inv old w :
  token (auth w) = stored_token w →
  (authorization w = None
   ∨ ∃ t, token (auth w) = Some t ∧ authorization w = Some (bearer t)) →
  (token (auth w) = old → auth_loading (auth w) = true → 0 < profile_requests w) →
  auth_inv (after_render old w).
Proof.
  intros Hs Hh Hl. unfold after_render. case_decide as Hsame; [by repeat split; auto|].
  unfold token_effect, auth_inv.
  destruct (truthy (token (auth w))) eqn:Ht; simpl.
  - split; [done|]. split; [|lia].
    destruct (token (auth w)) as [t|]; [|done]. right. by exists t.
  - done.
Qed.

Lemma auth_step_inv w e : auth_inv w → auth_inv (auth_step w e).
Proof.
  intros Hinv. pose proof Hinv as (Hs & Hh & Hl).
  destruct e as [[a|]|t a| |]; simpl.
  - destruct (profile_requests w) as [|n]; [done|]. by repeat split.
  - destruct (profile_requests w) as [|n]; [done|].
    apply after_render_inv; simpl; [done|by left|done].
  - apply after_render_inv; simpl; [done|right; by exists t|].
    intros _. apply Hl.
  - done.
  - apply after_render_inv; simpl; [done|by left|]. intros _. apply Hl.
Qed.

Lemma auth_mount_inv stored : auth_inv (auth_mount stored).
Proof.
  unfold auth_mount, token_effect, auth_inv. simpl.
  destruct (truthy stored) eqn:Ht; simpl.
  - split; [done|]. split; [|lia]. destruct stored as [t|]; [|done].
    right. by exists t.
  - split; [done|]. split; [by left|done].
Qed.

End authentication.

(** X13: once the session is known, the header offers a page exactly to
    those the route lets in: "My Bookings" is shown if and only if the
    bookings route renders its page, "Admin Panel" if and only if the admin
    route does, whoever may see the admin page may see the bookings page,
    and while the session is loading a route only spins, it never
    redirects. *)
Theorem X13_header_matches_routes (st : auth_state) :
  (auth_loading st = false →
     (nav_my_bookings st = true ↔ ProtectedRoute false st = Children)
     ∧ (nav_admin_panel st = true ↔ ProtectedRoute true st = Children)
     ∧ (ProtectedRoute true st = Children → ProtectedRoute false st = Children))
  ∧ (auth_loading st = true →
     ∀ adminOnly, ProtectedRoute adminOnly st = Spinner).
Proof.
  unfold nav_my_bookings, nav_admin_panel, ProtectedRoute. split.
  - intros ->. destruct (auth_user st) as [a|]; simpl.
    + split; [done|]. split; [|done].
      case_bool_decide; simpl; split; done.
    + split; [|split; [done|done]]. split; done.
  - by intros ->.
Qed.

Lemma X13_header_matches_routes_witness :
  ProtectedRoute false (mkAuth (Some rider) (Some "t0") false) = Children.
Proof.
  refine (proj1 (proj1 (proj1 (X13_header_matches_routes _) _)) _);
    compute_done.
Defined.

(** X14: whatever happens to the session, the token in React state is the
    one in [localStorage], the [Authorization] header is either absent or
    the bearer header of that very token, and the loading flag is only up
    while a profile request is outstanding. *)
Theorem X14_session_stays_consistent (stored : option string)
    (evs : list auth_event) :
  let w := auth_run evs (auth_mount stored) in
  token (auth w) = stored_token w
  ∧ (authorization w = None
     ∨ ∃ t, token (auth w) = Some t ∧ authorization w = Some (bearer t))
  ∧ (auth_loading (auth w) = true → 0 < profile_requests w).
Proof.
  intros w. subst w.
  assert (∀ w, auth_inv w → auth_inv (auth_run evs w)) as Hrun.
  { induction evs as [|e evs IH]; intros w Hinv; [done|].
    simpl. apply IH. by apply auth_step_inv. }
  apply Hrun, auth_mount_inv.
Qed.

Lemma X14_session_stays_consistent_witness :
  0 < profile_requests (auth_run [] (auth_mount (Some "t0"))).
Proof.
  refine (proj2 (proj2 (X14_session_stays_consistent (Some "t0") [])) _).
  reflexivity.
Defined.

(** X15: nothing cancels a profile request.  When the user logs out while
    one is outstanding and the profile then arrives, the user is signed in
    again although token, stored token and header are gone, and the
    protected bookings page opens for that user. *)
Theorem X15_late_profile_survives_logout (w : auth_world) (a : account)
    (Hpending : 0 < profile_requests w) :
  let w' := auth_run [Logout; ProfileSettled (Some a)] w in
  auth_user (auth w') = Some a
  ∧ token (auth w') = None
  ∧ stored_token w' = None
  ∧ authorization w' = None
  ∧ ProtectedRoute false (auth w') = Children.
Proof.
  simpl. unfold after_render, token_effect. simpl.
  destruct (profile_requests w) as [|n] eqn:Hn; [lia|].
  by case_decide.
Qed.

Lemma X15_late_profile_survives_logout_witness :
  auth_user (auth (auth_run [SignedIn "t1" rider; Logout; ProfileSettled (Some rider)]
                     (auth_mount None)))
  = Some rider.
Proof.
  refine (proj1 (X15_late_profile_survives_logout
                   (auth_run [SignedIn "t1" rider] (auth_mount None)) rider _)).
  vm_compute. lia.
Defined.

(** * Searching and choosing a bus *)

Section home_page.
Implicit Types (w : home_world) (e : home_event) (user : option account).

Lemma log_home_toast_inv t w : home_inv w → home_inv (log_home (HomeToast t) w).
Proof.
  intros (Ho & Hd & Hl). split; [done|]. split; [done|]. simpl.
  intros r [Hin|Hin%list_elem_of_singleton]%elem_of_app; [by apply Hl|done].
Qed.

Lemma truthy_some_false (s : string) : negb (truthy (Some s)) = false → s ≠ "".
Proof.
  simpl. rewrite negb_involutive. by intros Hs%bool_decide_eq_false.
Qed.

Lemma with_home_inv (f : home_state → home_state) w :
  home_inv w → home_inv (with_home f w).
Proof. done. Qed.

Lemma handleSubmit_inv w : home_inv w → home_inv (handleSubmit w).
Proof.
  intros Hinv. pose proof Hinv as (Ho & Hd & Hl). unfold handleSubmit.
  destruct (negb (truthy (Some (origin (form w))))) eqn:Hto;
    [by apply log_home_toast_inv|].
  destruct (negb (truthy (Some (destination (form w))))) eqn:Htd;
    [by apply log_home_toast_inv|].
  apply truthy_some_false in Hto, Htd. simpl.
  unfold handleSearch. destruct (travel_date (form w)) as [day|].
  - split; [done|]. split; [done|]. simpl.
    intros r [Hin|Hin%list_elem_of_singleton]%elem_of_app; [by apply Hl|].
    simplify_eq. simpl. by destruct Ho, Hd.
  - apply with_home_inv, log_home_toast_inv. exact Hinv.
Qed.

Lemma home_dispatch_inv user w e : home_inv w → home_inv (home_dispatch user w e).
Proof.
  intros Hinv. pose proof Hinv as (Ho & Hd & Hl).
  destruct e as [city|city|d| |i| |b| |r|k r];
    unfold home_dispatch; destruct (home_view_of (home w)); try done;
    try (destruct (searches w); [done|]; destruct r; [done|];
         apply with_home_inv, log_home_toast_inv; exact Hinv);
    try (destruct (seat_fetches w !! k); [|done]; destruct r; [done|];
         apply with_home_inv, log_home_toast_inv; exact Hinv).
  - case_bool_decide; [|done]. split; [by right|done].
  - case_bool_decide; [|done]. split; [done|]. split; [by right|done].
  - by apply handleSubmit_inv.
  - destruct (home_loading (home w)); [done|].
    destruct (searchResults (home w)) as [buses|]; [|done].
    destruct (buses !! i) as [bus|]; [|done].
    unfold handleSelectBus. destruct user; [|by apply log_home_toast_inv].
    split; [done|]. split; [done|]. simpl.
    intros r [Hin|Hin%list_elem_of_singleton]%elem_of_app; [by apply Hl|done].
Qed.

Lemma home_step_inv user today w e : home_inv w → home_inv (home_step user today w e).
Proof.
  intros Hinv. unfold home_step.
  destruct (home_dispatch_inv user w e Hinv) as (Ho & Hd & Hl).
  destruct (home_view_of (home (home_dispatch user w e))); try done.
  - split; [by left|]. split; [by left|done].
  - split; [by left|]. split; [by left|done].
Qed.

Lemma home_dispatch_guest w e : guest_inv w → guest_inv (home_dispatch None w e).
Proof.
  intros Hinv. pose proof Hinv as (Hb & Hf & Hl).
  assert (∀ t w', guest_inv w' → guest_inv (log_home (HomeToast t) w')) as Htoast.
  { intros t w' (Hb' & Hf' & Hl'). split; [done|]. split; [done|]. simpl.
    intros schedule [Hin|Hin%list_elem_of_singleton]%elem_of_app; [by eapply Hl'|done]. }
  assert (∀ f w', selectedBus (f (home w')) = None →
            guest_inv w' → guest_inv (with_home f w')) as Hwith.
  { intros f w' Hsel (Hb' & Hf' & Hl'). by split. }
  destruct e as [city|city|d| |i| |b| |r|k r];
    unfold home_dispatch; destruct (home_view_of (home w)); try done;
    try (by case_bool_decide);
    try (by rewrite Hf);
    try (by apply Hwith);
    try (destruct (searches w); [done|]; destruct r;
         [by apply Hwith|apply Hwith; [done|]; apply Htoast; exact Hinv]).
  - unfold handleSubmit.
    destruct (negb _ || negb _); [by apply Htoast|].
    unfold handleSearch. destruct (travel_date (form w)).
    + split; [done|]. split; [done|]. simpl.
      intros schedule [Hin|Hin%list_elem_of_singleton]%elem_of_app;
        [by eapply Hl|done].
    + apply Hwith; [done|]. apply Htoast. by apply Hwith.
  - destruct (home_loading (home w)); [done|].
    destruct (searchResults (home w)) as [buses|]; [|done].
    destruct (buses !! i); [|done]. by apply Htoast.
Qed.

Lemma home_step_guest today w e : guest_inv w → guest_inv (home_step None today w e).
Proof.
  intros Hinv. unfold home_step.
  pose proof (home_dispatch_guest w e Hinv) as Hg.
  by destruct (home_view_of (home (home_dispatch None w e))).
Qed.

Lemma home_run_inv user today evs w :
  home_inv w → home_inv (home_run user today evs w).
Proof.
  revert w. induction evs as [|e evs IH]; intros w Hinv; [done|].
  simpl. apply IH. by apply home_step_inv.
Qed.

End home_page.

(** X16: a submit of the search form with the origin or the destination
    missing only raises the "Please select both" toast: nothing is posted
    and nothing else changes.  And every search the page does post, in any
    run, is between two cities of the list the form offers. *)
Theorem X16_searches_are_between_cities :
  (∀ (user : option account) (w : home_world),
     home_view_of (home w) = SearchView →
     origin (form w) = "" ∨ destination (form w) = "" →
     home_dispatch user w SubmitSearch
     = log_home (HomeToast (mkToast "Please select both origin and destination cities"
                              None (Some "destructive"))) w)
  ∧ (∀ (user : option account) (today : string) (evs : list home_event)
       (r : search_request),
       SearchPost r ∈ home_log (home_run user today evs (initial_home_world today)) →
       search_origin r ∈ cities ∧ search_destination r ∈ cities).
Proof.
  split.
  - intros user w Hview Hmissing. unfold home_dispatch. rewrite Hview.
    unfold handleSubmit. destruct Hmissing as [-> | ->]; [done|].
    by rewrite orb_true_r.
  - intros user today evs r Hposted.
    destruct (home_run_inv user today evs (initial_home_world today)) as (_ & _ & Hl).
    { split; [by left|]. split; [by left|]. intros r' Hr'. by apply elem_of_nil in Hr'. }
    by apply Hl.
Qed.

Lemma X16_searches_are_between_cities_witness :
  (search_origin (mkSearch "Pune" "Delhi" "2025-01-15") ∈ cities
   ∧ search_destination (mkSearch "Pune" "Delhi" "2025-01-15") ∈ cities)
  ∧ home_log (home_dispatch None
                (home_run None "2025-01-15" [PickOrigin "Pune"]
                   (initial_home_world "2025-01-15")) SubmitSearch)
    = [HomeToast (mkToast "Please select both origin and destination cities"
                    None (Some "destructive"))].
Proof.
  split.
  - apply (proj2 X16_searches_are_between_cities None "2025-01-15"
             [PickOrigin "Pune"; PickDestination "Delhi"; SubmitSearch]).
    vm_compute. left.
  - rewrite (proj1 X16_searches_are_between_cities None
               (home_run None "2025-01-15" [PickOrigin "Pune"]
                  (initial_home_world "2025-01-15")) eq_refl); [reflexivity|].
    by right.
Defined.

(** X17: a click on "Select Seats" at a moment when no user is logged in
    only raises a toast: it requests no seats and leaves the page state as
    it is.  Hence in a run in which no user is logged in at any time, the
    page never asks for the seats of a bus, has no seat request in flight
    and never shows the seat selection.  A seat response that does arrive
    opens the seat selection for its bus whoever is logged in by then, so a
    request started before a logout still opens it. *)
Theorem X17_guest_never_reaches_seats :
  (∀ (today : string) (w : home_world) (i : nat),
     let w' := home_step None today w (SelectSeats i) in
     seat_fetches w' = seat_fetches w
     ∧ home w' = home w
     ∧ (∀ schedule, SeatsGet schedule ∈ home_log w' → SeatsGet schedule ∈ home_log w))
  ∧ (∀ (today : string) (evs : list home_event),
       let w := home_run None today evs (initial_home_world today) in
       (∀ schedule, SeatsGet schedule ∉ home_log w)
       ∧ seat_fetches w = []
       ∧ (∀ bus seats, home_view_of (home w) ≠ SeatView bus seats))
  ∧ (∀ (user : option account) (today : string) (w : home_world) (k : nat)
       (bus : found_bus) (seats : list Seat),
       seat_fetches w !! k = Some bus →
       shown_booking (home w) = None →
       home_view_of (home (home_step user today w (SeatsSettled k (SeatsOk seats))))
       = SeatView bus seats).
Proof.
  split; [|split].
  - intros today w i w'. subst w'.
    assert (seat_fetches (home_dispatch None w (SelectSeats i)) = seat_fetches w
            ∧ home (home_dispatch None w (SelectSeats i)) = home w
            ∧ (∀ schedule,
                 SeatsGet schedule ∈ home_log (home_dispatch None w (SelectSeats i)) →
                 SeatsGet schedule ∈ home_log w)) as (Hf & Hh & Hl).
    { unfold home_dispatch. destruct (home_view_of (home w)); try done.
      destruct (home_loading (home w)); [done|].
      destruct (searchResults (home w)) as [buses|]; [|done].
      destruct (buses !! i); [|done]. simpl.
      split; [done|]. split; [done|].
      by intros schedule [Hin|Hin%list_elem_of_singleton]%elem_of_app. }
    unfold home_step.
    by destruct (home_view_of (home (home_dispatch None w (SelectSeats i)))).
  - intros today evs w. subst w.
    assert (∀ w, guest_inv w → guest_inv (home_run None today evs w)) as Hrun.
    { induction evs as [|e evs IH]; intros w Hinv; [done|].
      simpl. apply IH. by apply home_step_guest. }
    destruct (Hrun (initial_home_world today)) as (Hb & Hf & Hl).
    { split; [done|]. split; [done|]. intros s Hs. by apply elem_of_nil in Hs. }
    split; [done|]. split; [done|]. intros bus seats.
    unfold home_view_of. rewrite Hb. by destruct (shown_booking _).
  - intros user today w k bus seats Hk Hnone.
    unfold home_step, home_dispatch.
    destruct (home_view_of (home w)); rewrite Hk; simpl;
      unfold home_view_of; simpl; by rewrite Hnone.
Qed.

Lemma X17_guest_never_reaches_seats_witness :
  home_view_of
    (home (home_step None "2025-01-15"
             (mkHomeWorld (initial_form "2025-01-15")
                (mkHome (Some [night_bus]) None [] None true) 0 [night_bus] [])
             (SeatsSettled 0 (SeatsOk [seat_A1]))))
  = SeatView night_bus [seat_A1].
Proof.
  by refine (proj2 (proj2 X17_guest_never_reaches_seats) None "2025-01-15" _ 0
               night_bus [seat_A1] _ _).
Defined.

(** X18: a completed booking always leads out cleanly.  From the seat
    selection, the booking reported by [onBookingComplete] is what the
    success view shows, and "Search More Buses" then gives the search view
    with no results listed and the search form as new. *)
Theorem X18_booking_then_search_more (user : option account) (today : string)
    (w : home_world) (b : booking) (bus : found_bus) (seats : list Seat)
    (Hview : home_view_of (home w) = SeatView bus seats) :
  let w1 := home_step user today w (BookingDone b) in
  let w2 := home_step user today w1 SearchMore in
  home_view_of (home w1) = SuccessView b
  ∧ home_view_of (home w2) = SearchView
  ∧ searchResults (home w2) = None
  ∧ form w2 = initial_form today.
Proof.
  unfold home_step, home_dispatch. rewrite Hview. simpl. done.
Qed.

Lemma X18_booking_then_search_more_witness :
  home_view_of
    (home (home_step (Some rider) "2025-01-15"
             (mkHomeWorld (initial_form "2025-01-15")
                (mkHome (Some [night_bus]) (Some night_bus) [seat_A1] None false)
                0 [] [])
             (BookingDone (mkBooking "b1" 500 "confirmed"))))
  = SuccessView (mkBooking "b1" 500 "confirmed").
Proof.
  refine (proj1 (X18_booking_then_search_more (Some rider) "2025-01-15" _
                   (mkBooking "b1" 500 "confirmed") night_bus [seat_A1] _)).
  reflexivity.
Defined.
